(** * Rigid transform algebra of [examples/controller_relative_to_tracker.cpp]

    The program reads the world-frame pose of a controller and of a tracker
    from the tracking provider, turns both into 3x4 matrices [R | t], inverts
    the tracker's matrix, multiplies, and reports the translation column.

    The C++ functions write their results through reference parameters, so
    they are embedded as transformers of a memory that maps references to
    [Transform] objects.  The arithmetic of [double] is kept abstract in the
    class [Scalar]; it is instantiated with the real numbers, over which the
    algebraic properties are stated, and with binary64 floating point, over
    which the functions run on concrete inputs. *)

From Stdlib Require Import PrimFloat.
From Stdlib Require Import String.
From Stdlib Require Import List Arith Lia Bool.
From Stdlib Require Import Reals Lra Psatz RNsatz.
Import ListNotations.

Set Implicit Arguments.
Set Warnings "-inexact-float".

(* ================================================================== *)
(** ** Arithmetic of [double] *)

(** The operations the program applies to [double] values.  [sc_zero],
    [sc_one] and [sc_two] are the literals [0] (also [0.0]), [1] and [2]
    after their conversion to [double]. *)
Class Scalar (A : Type) : Type := {
  sc_zero : A;
  sc_one : A;
  sc_two : A;
  sc_add : A -> A -> A;
  sc_sub : A -> A -> A;
  sc_mul : A -> A -> A;
  sc_sqrt : A -> A
}.

Declare Scope scalar_scope.
Delimit Scope scalar_scope with sc.
Notation "x + y" := (sc_add x y) : scalar_scope.
Notation "x - y" := (sc_sub x y) : scalar_scope.
Notation "x * y" := (sc_mul x y) : scalar_scope.

(** Exact arithmetic: the reals of the specification's data model. *)
#[export] Instance Scalar_R : Scalar R := {
  sc_zero := 0%R;
  sc_one := 1%R;
  sc_two := 2%R;
  sc_add := Rplus;
  sc_sub := Rminus;
  sc_mul := Rmult;
  sc_sqrt := sqrt
}.

(** IEEE 754 binary64 with round-to-nearest-even: the [double] of the
    source. *)
#[export] Instance Scalar_double : Scalar PrimFloat.float := {
  sc_zero := 0%float;
  sc_one := 1%float;
  sc_two := 2%float;
  sc_add := PrimFloat.add;
  sc_sub := PrimFloat.sub;
  sc_mul := PrimFloat.mul;
  sc_sqrt := PrimFloat.sqrt
}.

(* ================================================================== *)
(** ** Fixed-size arrays *)

(** [T a[3]] and [T a[4]].  Every index in the source is a literal or a
    loop counter below the bound.  C++ gives no meaning to an index outside
    the array; here such a read yields the last element and such a write
    leaves the array as it is. *)
Record Arr3 (T : Type) : Type := mkArr3 { a3_0 : T; a3_1 : T; a3_2 : T }.
Record Arr4 (T : Type) : Type :=
  mkArr4 { a4_0 : T; a4_1 : T; a4_2 : T; a4_3 : T }.

Definition get3 {T} (a : Arr3 T) (i : nat) : T :=
  match i with
  | 0 => a3_0 a
  | 1 => a3_1 a
  | _ => a3_2 a
  end.

Definition set3 {T} (a : Arr3 T) (i : nat) (v : T) : Arr3 T :=
  match i with
  | 0 => mkArr3 v (a3_1 a) (a3_2 a)
  | 1 => mkArr3 (a3_0 a) v (a3_2 a)
  | 2 => mkArr3 (a3_0 a) (a3_1 a) v
  | _ => a
  end.

Definition get4 {T} (a : Arr4 T) (i : nat) : T :=
  match i with
  | 0 => a4_0 a
  | 1 => a4_1 a
  | 2 => a4_2 a
  | _ => a4_3 a
  end.

Definition set4 {T} (a : Arr4 T) (i : nat) (v : T) : Arr4 T :=
  match i with
  | 0 => mkArr4 v (a4_1 a) (a4_2 a) (a4_3 a)
  | 1 => mkArr4 (a4_0 a) v (a4_2 a) (a4_3 a)
  | 2 => mkArr4 (a4_0 a) (a4_1 a) v (a4_3 a)
  | 3 => mkArr4 (a4_0 a) (a4_1 a) (a4_2 a) v
  | _ => a
  end.

(** [for (int i = lo; i < hi; i++) body], threading the state [s]. *)
Definition for_range {S : Type} (lo hi : nat) (body : nat -> S -> S) (s : S)
  : S :=
  fold_left (fun s i => body i s) (seq lo (hi - lo)) s.

(* ================================================================== *)
(** ** The program *)

Section Program.

Context {A : Type} {SA : Scalar A}.
Local Open Scope scalar_scope.

(** [struct Transform { double matrix[3][4]; }] *)
Record Transform : Type := mkTransform { matrix : Arr3 (Arr4 A) }.

(** [t.matrix[i][j]] as an rvalue. *)
Definition mget (t : Transform) (i j : nat) : A :=
  get4 (get3 (matrix t) i) j.

(** [t.matrix[i][j] = v]. *)
Definition mset (t : Transform) (i j : nat) (v : A) : Transform :=
  mkTransform (set3 (matrix t) i (set4 (get3 (matrix t) i) j v)).

(** A [Transform&] parameter or a local [Transform] is a reference into a
    memory of [Transform] objects; two parameters bound to the same object
    are the same reference. *)
Definition Ref : Type := nat.
Definition Mem : Type := Ref -> Transform.

(** [r.matrix[i][j]] read through the reference [r]. *)
Definition load (m : Mem) (r : Ref) (i j : nat) : A := mget (m r) i j.

(** [r.matrix[i][j] = v] written through the reference [r]. *)
Definition store (m : Mem) (r : Ref) (i j : nat) (v : A) : Mem :=
  fun r' => if Nat.eqb r' r then mset (m r) i j v else m r'.

(** [void PoseQuatToMatrix(const double pose[3], const double quat[4],
    Transform& transform)].  The C++ expression [1 - 2*y*y - 2*z*z] groups
    as [(1 - (2*y)*y) - (2*z)*z], which is how the notations associate. *)
Definition PoseQuatToMatrix (pose : Arr3 A) (quat : Arr4 A) (transform : Ref)
    (m : Mem) : Mem :=
  let w := get4 quat 0 in
  let x := get4 quat 1 in
  let y := get4 quat 2 in
  let z := get4 quat 3 in
  let one := sc_one in
  let two := sc_two in
  let m := store m transform 0 0 (one - two*y*y - two*z*z) in
  let m := store m transform 0 1 (two*x*y - two*w*z) in
  let m := store m transform 0 2 (two*x*z + two*w*y) in
  let m := store m transform 0 3 (get3 pose 0) in
  let m := store m transform 1 0 (two*x*y + two*w*z) in
  let m := store m transform 1 1 (one - two*x*x - two*z*z) in
  let m := store m transform 1 2 (two*y*z - two*w*x) in
  let m := store m transform 1 3 (get3 pose 1) in
  let m := store m transform 2 0 (two*x*z - two*w*y) in
  let m := store m transform 2 1 (two*y*z + two*w*x) in
  let m := store m transform 2 2 (one - two*x*x - two*y*y) in
  let m := store m transform 2 3 (get3 pose 2) in
  m.

(** [void InvertTransform(const Transform& input, Transform& output)] *)
Definition InvertTransform (input output : Ref) (m : Mem) : Mem :=
  (* Transpose the rotation part *)
  let m :=
    for_range 0 3 (fun i m =>
      for_range 0 3 (fun j m =>
        store m output i j (load m input j i)) m) m in
  (* Compute -R^T * t *)
  for_range 0 3 (fun i m =>
    let m := store m output i 3 sc_zero in
    for_range 0 3 (fun j m =>
      store m output i 3
        (load m output i 3 - load m output i j * load m input j 3)) m) m.

(** [void MultiplyTransforms(const Transform& t1, const Transform& t2,
    Transform& result)] *)
Definition MultiplyTransforms (t1 t2 result : Ref) (m : Mem) : Mem :=
  (* Multiply rotation parts (3x3 * 3x3) *)
  let m :=
    for_range 0 3 (fun i m =>
      for_range 0 3 (fun j m =>
        let m := store m result i j sc_zero in
        for_range 0 3 (fun k m =>
          store m result i j
            (load m result i j + load m t1 i k * load m t2 k j)) m) m) m in
  (* Compute translation: R1 * t2 + t1 *)
  for_range 0 3 (fun i m =>
    let m := store m result i 3 (load m t1 i 3) in
    for_range 0 3 (fun j m =>
      store m result i 3
        (load m result i 3 + load m t1 i j * load m t2 j 3)) m) m.

(** [void ExtractPosition(const Transform& transform, double position[3])] *)
Definition ExtractPosition (transform : Ref) (position : Arr3 A) (m : Mem)
  : Arr3 A :=
  let position := set3 position 0 (load m transform 0 3) in
  let position := set3 position 1 (load m transform 1 3) in
  let position := set3 position 2 (load m transform 2 3) in
  position.

(** [double ComputeDistance(const double relative_position[3])] *)
Definition ComputeDistance (relative_position : Arr3 A) : A :=
  sc_sqrt (get3 relative_position 0 * get3 relative_position 0 +
           get3 relative_position 1 * get3 relative_position 1 +
           get3 relative_position 2 * get3 relative_position 2).

(** The tracking provider [CHtc_Vive_Tracker] is declared in
    [htc_vive_tracker.h], outside the file; it is a parameter here.
    [GetDevicePoseQuaternion vt name] is the call
    [vt.GetDevicePoseQuaternion(name, pose, quat)]: the provider after the
    call, the returned [bool], and what the two buffers hold afterwards. *)
Variable CHtc_Vive_Tracker : Type.
Variable GetDevicePoseQuaternion :
  CHtc_Vive_Tracker -> string -> CHtc_Vive_Tracker * bool * Arr3 A * Arr4 A.

(** The four local [Transform] objects of [ComputeRelativePosition]. *)
Definition T_world_controller : Ref := 0.
Definition T_world_tracker : Ref := 1.
Definition T_tracker_world : Ref := 2.
Definition T_tracker_controller : Ref := 3.

(** [void ComputeRelativePosition(CHtc_Vive_Tracker& vt,
    const std::string& controller_name, const std::string& tracker_name,
    double relative_position[3])].

    [cout] is the text written to [std::cout] so far, one entry per line;
    [stack] holds whatever the uninitialised locals contain on entry.  The
    result is the provider, the console and the caller's buffer after the
    call. *)
Definition ComputeRelativePosition (vt : CHtc_Vive_Tracker)
    (controller_name tracker_name : string) (relative_position : Arr3 A)
    (cout : list string) (stack : Mem)
  : CHtc_Vive_Tracker * list string * Arr3 A :=
  (* Get absolute poses *)
  let '(vt, controller_success, controller_pose, controller_quat) :=
    GetDevicePoseQuaternion vt controller_name in
  let '(vt, tracker_success, tracker_pose, tracker_quat) :=
    GetDevicePoseQuaternion vt tracker_name in
  if negb controller_success || negb tracker_success then
    let cout := cout ++ ["Error: Could not get poses for both devices"%string] in
    let relative_position := set3 relative_position 2 sc_zero in
    let relative_position := set3 relative_position 1 sc_zero in
    let relative_position := set3 relative_position 0 sc_zero in
    (vt, cout, relative_position)
  else
    (* Convert to transformation matrices *)
    let stack :=
      PoseQuatToMatrix controller_pose controller_quat T_world_controller
        stack in
    let stack :=
      PoseQuatToMatrix tracker_pose tracker_quat T_world_tracker stack in
    (* Compute inverse of tracker transform *)
    let stack := InvertTransform T_world_tracker T_tracker_world stack in
    (* T_tracker_controller = T_tracker_world * T_world_controller *)
    let stack :=
      MultiplyTransforms T_tracker_world T_world_controller
        T_tracker_controller stack in
    (* Extract position *)
    (vt, cout, ExtractPosition T_tracker_controller relative_position stack).

End Program.

Arguments Transform A : clear implicits.
Arguments Mem A : clear implicits.

(* ================================================================== *)
(** ** The functions called by value *)

Section ByValue.

Context {A : Type} {SA : Scalar A}.
Local Open Scope scalar_scope.

(** A [Transform] given by its twelve entries. *)
Definition tabulate (f : nat -> nat -> A) : Transform A :=
  mkTransform
    (mkArr3 (mkArr4 (f 0 0) (f 0 1) (f 0 2) (f 0 3))
            (mkArr4 (f 1 0) (f 1 1) (f 1 2) (f 1 3))
            (mkArr4 (f 2 0) (f 2 1) (f 2 2) (f 2 3))).

(** A zero-filled object, to have some initial content for a result. *)
Definition blank : Transform A := tabulate (fun _ _ => sc_zero).

(** [PoseQuatToMatrix(pose, quat, T)] on an object [T] of its own: what [T]
    holds afterwards. *)
Definition Encode (pose : Arr3 A) (quat : Arr4 A) : Transform A :=
  PoseQuatToMatrix pose quat 0 (fun _ => blank) 0.

(** [InvertTransform(T, out)] with [out] an object other than [T]: what
    [out] holds afterwards. *)
Definition Invert (T : Transform A) : Transform A :=
  InvertTransform 0 1 (fun _ => T) 1.

(** [MultiplyTransforms(T1, T2, out)] with [out] an object other than [T1]
    and [T2]: what [out] holds afterwards. *)
Definition Compose (T1 T2 : Transform A) : Transform A :=
  MultiplyTransforms 0 1 2
    (fun r => match r with 0 => T1 | _ => T2 end) 2.

(** The blocks of [[R | t]]: columns 0 to 2, and column 3. *)
Definition rotation (T : Transform A) : Arr3 (Arr3 A) :=
  mkArr3 (mkArr3 (mget T 0 0) (mget T 0 1) (mget T 0 2))
         (mkArr3 (mget T 1 0) (mget T 1 1) (mget T 1 2))
         (mkArr3 (mget T 2 0) (mget T 2 1) (mget T 2 2)).

Definition translation (T : Transform A) : Arr3 A :=
  mkArr3 (mget T 0 3) (mget T 1 3) (mget T 2 3).

(** [[R | t]] from its blocks. *)
Definition rigid (R : Arr3 (Arr3 A)) (t : Arr3 A) : Transform A :=
  tabulate (fun i j => if Nat.ltb j 3 then get3 (get3 R i) j else get3 t i).

(** Two memories agree along a placement [rho] of the references
    [0 .. n-1]. *)
Definition agree (n : nat) (rho : nat -> Ref) (m m' : Mem A) : Prop :=
  forall a, a < n -> m (rho a) = m' a.

(** No other placed reference shares the object of [c]. *)
Definition isolated (n : nat) (rho : nat -> Ref) (c : nat) : Prop :=
  forall b, b < n -> rho b = rho c -> b = c.

End ByValue.

(* ================================================================== *)
(** ** The specification's algebra, over the reals *)

Module Spec.

Local Open Scope R_scope.

Definition Vec3 : Type := Arr3 R.
Definition Mat3 : Type := Arr3 (Arr3 R).

Definition vec (f : nat -> R) : Vec3 := mkArr3 (f 0%nat) (f 1%nat) (f 2%nat).

Definition mat (f : nat -> nat -> R) : Mat3 :=
  mkArr3 (vec (f 0%nat)) (vec (f 1%nat)) (vec (f 2%nat)).

Definition entry (M : Mat3) (i j : nat) : R := get3 (get3 M i) j.

Definition I3 : Mat3 := mat (fun i j => if Nat.eqb i j then 1 else 0).

Definition zero3 : Vec3 := vec (fun _ => 0).

Definition transpose (M : Mat3) : Mat3 := mat (fun i j => entry M j i).

Definition mat_mul (M N : Mat3) : Mat3 :=
  mat (fun i j =>
         entry M i 0 * entry N 0 j + entry M i 1 * entry N 1 j +
         entry M i 2 * entry N 2 j).

Definition mat_vec (M : Mat3) (v : Vec3) : Vec3 :=
  vec (fun i =>
         entry M i 0 * get3 v 0 + entry M i 1 * get3 v 1 +
         entry M i 2 * get3 v 2).

Definition vec_add (u v : Vec3) : Vec3 := vec (fun i => get3 u i + get3 v i).

Definition vec_opp (v : Vec3) : Vec3 := vec (fun i => - get3 v i).

Definition det (M : Mat3) : R :=
  entry M 0 0 * (entry M 1 1 * entry M 2 2 - entry M 1 2 * entry M 2 1)
  - entry M 0 1 * (entry M 1 0 * entry M 2 2 - entry M 1 2 * entry M 2 0)
  + entry M 0 2 * (entry M 1 0 * entry M 2 1 - entry M 1 1 * entry M 2 0).

(** [R] is orthonormal: [R^T R = I]. *)
Definition orthonormal (M : Mat3) : Prop := mat_mul (transpose M) M = I3.

(** A valid rigid transform: orthonormal rotation of determinant +1. *)
Definition valid (T : Transform R) : Prop :=
  orthonormal (rotation T) /\ det (rotation T) = 1.

(** The identity transform: rotation [I], translation zero. *)
Definition identity : Transform R := rigid I3 zero3.

(** [w^2 + x^2 + y^2 + z^2 = 1]. *)
Definition unit_quaternion (q : Arr4 R) : Prop :=
  get4 q 0 ^ 2 + get4 q 1 ^ 2 + get4 q 2 ^ 2 + get4 q 3 ^ 2 = 1.

(** The standard quaternion-to-rotation matrix of section 4.1, for
    [quat = (w, x, y, z)]. *)
Definition quat_rotation (quat : Arr4 R) : Mat3 :=
  let w := get4 quat 0 in
  let x := get4 quat 1 in
  let y := get4 quat 2 in
  let z := get4 quat 3 in
  mkArr3
    (mkArr3 (1 - 2*y^2 - 2*z^2) (2*x*y - 2*w*z) (2*x*z + 2*w*y))
    (mkArr3 (2*x*y + 2*w*z) (1 - 2*x^2 - 2*z^2) (2*y*z - 2*w*x))
    (mkArr3 (2*x*z - 2*w*y) (2*y*z + 2*w*x) (1 - 2*x^2 - 2*y^2)).

(** Section 4.1: rotation from the formula, translation the position. *)
Definition Encode_spec (position : Vec3) (quat : Arr4 R) : Transform R :=
  rigid (quat_rotation quat) position.

(** Section 4.2: rotation [R^T], translation [- R^T t]. *)
Definition Invert_spec (T : Transform R) : Transform R :=
  rigid (transpose (rotation T))
        (vec_opp (mat_vec (transpose (rotation T)) (translation T))).

(** Section 4.3: rotation [R_A R_B], translation [t_A + R_A t_B]. *)
Definition Compose_spec (TA TB : Transform R) : Transform R :=
  rigid (mat_mul (rotation TA) (rotation TB))
        (vec_add (translation TA) (mat_vec (rotation TA) (translation TB))).

(** The order section 4.3 rules out: [R_B t_A + t_B]. *)
Definition wrong_order_translation (TA TB : Transform R) : Vec3 :=
  vec_add (mat_vec (rotation TB) (translation TA)) (translation TB).

(** The point [p] of the local frame of [T], in the reference frame. *)
Definition apply (T : Transform R) (p : Vec3) : Vec3 :=
  vec_add (mat_vec (rotation T) p) (translation T).

(** Failure taxonomy of section 7. *)
Inductive Failure : Type := DeviceUnavailable.

(** The contract [RelativePosition] of section 4.4, from the provider's
    answers [(success, position, quaternion)] for the primary and for the
    secondary device. *)
Definition RelativePosition (primary secondary : bool * Vec3 * Arr4 R)
  : Failure + Vec3 :=
  let '(primary_success, primary_position, primary_quat) := primary in
  let '(secondary_success, secondary_position, secondary_quat) := secondary in
  if primary_success && secondary_success then
    inr (translation
           (Compose_spec
              (Invert_spec (Encode_spec secondary_position secondary_quat))
              (Encode_spec primary_position primary_quat)))
  else inl DeviceUnavailable.

End Spec.

(** What a caller of [ComputeRelativePosition] is handed, read as a result
    of the contract: the function returns [void] and has no other output
    than the buffer, so it is always the three numbers in the buffer. *)
Definition delivered {VT : Type} (r : VT * list string * Arr3 R)
  : Spec.Failure + Spec.Vec3 :=
  inr (snd r).

(* ================================================================== *)
(** ** Concrete providers *)

Section Scenario.

Context {A : Type}.

(** A provider without state that answers [controller] for the name
    ["controller_1"] and [tracker] for any other name; [main] asks for
    ["controller_1"] and ["tracker_1"]. *)
Definition scenario (controller tracker : bool * Arr3 A * Arr4 A)
    (vt : unit) (name : string) : unit * bool * Arr3 A * Arr4 A :=
  let '(success, pose, quat) :=
    if String.eqb name "controller_1" then controller else tracker in
  (vt, success, pose, quat).

(** One call of [ComputeRelativePosition] as [main] makes it, followed by
    [ComputeDistance]: the console, the buffer and the distance. *)
Definition evaluate {SA : Scalar A}
    (controller tracker : bool * Arr3 A * Arr4 A) (garbage : Arr3 A)
  : list string * Arr3 A * A :=
  let '(_, cout, relative_position) :=
    ComputeRelativePosition (scenario controller tracker) tt
      "controller_1" "tracker_1" garbage [] (fun _ => blank) in
  (cout, relative_position, ComputeDistance relative_position).

End Scenario.

(** Entry-wise comparison of two binary64 transforms up to [tol]. *)
Definition near (tol a b : float) : bool :=
  PrimFloat.leb (PrimFloat.abs (PrimFloat.sub a b)) tol.

Definition near3 (tol : float) (u v : Arr3 float) : bool :=
  near tol (get3 u 0) (get3 v 0) && near tol (get3 u 1) (get3 v 1) &&
  near tol (get3 u 2) (get3 v 2).

Definition near_transform (tol : float) (T1 T2 : Transform float) : bool :=
  forallb (fun i =>
    forallb (fun j => near tol (mget T1 i j) (mget T2 i j)) (seq 0 4))
    (seq 0 3).

(** The identity transform in binary64. *)
Definition identity_double : Transform float :=
  tabulate (fun i j => if Nat.eqb i j then 1%float else 0%float).





(* ================================================================== *)
(** ** The start of [main] *)

(** How [main] goes on after its checks: it returns a status, or it reaches
    [while (true)] with the provider in some state. *)
Inductive Outcome (VT : Type) : Type :=
| Returns (status : nat)
| EntersLoop (vt : VT).

Arguments Returns {VT} status.
Arguments EntersLoop {VT} vt.

Section Main.

(** The methods of [CHtc_Vive_Tracker] that [main] calls before the loop,
    as parameters like [GetDevicePoseQuaternion]: each gives the provider
    after the call and what the call returns.  What the provider prints on
    its own is part of its state; [cout] holds the lines this file
    prints. *)
Variable CHtc_Vive_Tracker : Type.
Variable InitializeVR : CHtc_Vive_Tracker -> bool -> CHtc_Vive_Tracker * bool.
Variable GetAllDeviceNames :
  CHtc_Vive_Tracker -> CHtc_Vive_Tracker * list string.
Variable PrintAllDetectedDevices : CHtc_Vive_Tracker -> CHtc_Vive_Tracker.
Variable IsDeviceDetected :
  CHtc_Vive_Tracker -> string -> CHtc_Vive_Tracker * bool.

(** The five lines printed for [-h]; the last [<<] starts with a newline,
    which gives the empty line. *)
Definition usage (argv0 : string) : list string :=
  [ ("Usage: " ++ argv0 ++ " [-v] [-h]")%string;
    "  -v : Verbose mode"%string;
    "  -h : Show this help"%string;
    ""%string;
    "This example prints the position of controller_1 relative to tracker_1"%string ].

(** [for (int i = 1; i < argc; ++i)] over the arguments [argv[i]],
    [argv[i+1]], ...: [inl verbose] when the loop runs to its end, [inr cout]
    when it returns 0 from inside. *)
Fixpoint parse_arguments (argv0 : string) (arguments : list string)
    (verbose : bool) (cout : list string) : bool + list string :=
  match arguments with
  | [] => inl verbose
  | argument :: arguments =>
      let verbose := if String.eqb argument "-v" then true else verbose in
      if String.eqb argument "-h" then inr (cout ++ usage argv0)
      else parse_arguments argv0 arguments verbose cout
  end.

(** [int main(int argc, char *argv[])] up to its polling loop: [argv] is the
    argument vector ([argc] its length), [vt] the provider as its
    constructor leaves it.  The result is the console and the outcome; the
    body of [while (true)] is not part of this definition. *)
Definition main (argv : list string) (vt : CHtc_Vive_Tracker)
  : list string * Outcome CHtc_Vive_Tracker :=
  let cout : list string := [] in
  (* Parse command line arguments *)
  match parse_arguments (nth 0 argv ""%string) (tl argv) false cout with
  | inr cout => (cout, Returns 0)
  | inl verbose =>
    (* Initialize HTC Vive Tracker *)
    let '(vt, initialized) := InitializeVR vt verbose in
    if negb initialized then
      (cout ++ ["Failed to initialize VR system"%string], Returns 1)
    else
    (* Check if required devices are detected *)
    let '(vt, names) := GetAllDeviceNames vt in
    if Nat.eqb (length names) 1 then
      (cout ++ ["No devices detected. Check that devices are connected and paired"%string],
       Returns 1)
    else
    let cout := cout ++ ["VR System initialized successfully"%string] in
    let vt := PrintAllDetectedDevices vt in
    let cout := cout ++ [""%string] in
    (* Define device names *)
    let controller_name := "controller_1"%string in
    let tracker_name := "tracker_1"%string in
    (* Check if both devices are detected *)
    let '(vt, detected) := IsDeviceDetected vt controller_name in
    if negb detected then
      (cout ++ [("Error: " ++ controller_name ++ " not detected!")%string],
       Returns 1)
    else
    let '(vt, detected) := IsDeviceDetected vt tracker_name in
    if negb detected then
      (cout ++ [("Error: " ++ tracker_name ++ " not detected!")%string],
       Returns 1)
    else
    let cout :=
      cout ++ [("Both " ++ controller_name ++ " and " ++ tracker_name
                ++ " detected!")%string] in
    let cout := cout ++ [""%string; "Press Ctrl+C to exit"%string; ""%string] in
    (cout, EntersLoop vt)
  end.

End Main.

(* ================================================================== *)
(** ** Loops and memory *)

Section Loops.

Context {S T : Type}.

Lemma for_range_sim (Rl : S -> T -> Prop) (f : nat -> S -> S)
    (g : nat -> T -> T) (lo hi : nat) :
  (forall i s t, Rl s t -> Rl (f i s) (g i t)) ->
  forall s t, Rl s t -> Rl (for_range lo hi f s) (for_range lo hi g t).
Proof.
  intros Hstep. unfold for_range.
  induction (seq lo (hi - lo)) as [|i l IH]; intros s t Hst; simpl.
  - exact Hst.
  - apply IH, Hstep, Hst.
Qed.

Lemma for_range_inv (P : S -> Prop) (f : nat -> S -> S) (lo hi : nat) :
  (forall i s, P s -> P (f i s)) ->
  forall s, P s -> P (for_range lo hi f s).
Proof.
  intros Hstep. unfold for_range.
  induction (seq lo (hi - lo)) as [|i l IH]; intros s Hs; simpl.
  - exact Hs.
  - apply IH, Hstep, Hs.
Qed.

End Loops.

Section Memory.

Context {A : Type} {SA : Scalar A}.
Local Open Scope scalar_scope.

Lemma store_same (m : Mem A) r i j v :
  store m r i j v r = mset (m r) i j v.
Proof. unfold store. now rewrite Nat.eqb_refl. Qed.

Lemma store_other (m : Mem A) r r' i j v :
  r' <> r -> store m r i j v r' = m r'.
Proof.
  intros Hne. unfold store.
  destruct (Nat.eqb_spec r' r) as [E|_]; [contradiction | reflexivity].
Qed.

(** *** Moving a computation to other references *)

Section Relocation.

Variables (n : nat) (rho : nat -> Ref).

Lemma load_agree (m m' : Mem A) a i j :
  a < n -> agree n rho m m' -> load m (rho a) i j = load m' a i j.
Proof. intros Ha Hm. unfold load. now rewrite (Hm a Ha). Qed.

Lemma store_agree (m m' : Mem A) c i j v :
  c < n -> isolated n rho c -> agree n rho m m' ->
  agree n rho (store m (rho c) i j v) (store m' c i j v).
Proof.
  intros Hc Hiso Hm a Ha. unfold store.
  destruct (Nat.eqb_spec (rho a) (rho c)) as [E|E];
    destruct (Nat.eqb_spec a c) as [E'|E'].
  - now rewrite (Hm c Hc).
  - elim E'. now apply Hiso.
  - elim E. now subst.
  - now apply Hm.
Qed.

Ltac relocate :=
  repeat first
    [ assumption
    | apply for_range_sim; intros
    | erewrite load_agree by eassumption
    | apply store_agree ].

Lemma PoseQuatToMatrix_agree pose quat c (m m' : Mem A) :
  c < n -> isolated n rho c -> agree n rho m m' ->
  agree n rho (PoseQuatToMatrix pose quat (rho c) m)
              (PoseQuatToMatrix pose quat c m').
Proof. intros Hc Hiso Hm. unfold PoseQuatToMatrix. cbv zeta. relocate. Qed.

Lemma InvertTransform_agree a b (m m' : Mem A) :
  a < n -> b < n -> isolated n rho b -> agree n rho m m' ->
  agree n rho (InvertTransform (rho a) (rho b) m) (InvertTransform a b m').
Proof. intros Ha Hb Hiso Hm. unfold InvertTransform. cbv zeta. relocate. Qed.

Lemma MultiplyTransforms_agree a b c (m m' : Mem A) :
  a < n -> b < n -> c < n -> isolated n rho c -> agree n rho m m' ->
  agree n rho (MultiplyTransforms (rho a) (rho b) (rho c) m)
              (MultiplyTransforms a b c m').
Proof.
  intros Ha Hb Hc Hiso Hm. unfold MultiplyTransforms. cbv zeta. relocate.
Qed.

End Relocation.

End Memory.

(* ================================================================== *)
(** ** What each function leaves in its output object *)

Section Results.

Context {A : Type} {SA : Scalar A}.
Local Open Scope scalar_scope.

(** The four entries of row [i] of the matrix written by
    [PoseQuatToMatrix]. *)
Lemma Encode_unfold (pose : Arr3 A) (quat : Arr4 A) :
  let w := get4 quat 0 in
  let x := get4 quat 1 in
  let y := get4 quat 2 in
  let z := get4 quat 3 in
  let one := sc_one in
  let two := sc_two in
  Encode pose quat =
  mkTransform
    (mkArr3
       (mkArr4 (one - two*y*y - two*z*z) (two*x*y - two*w*z)
               (two*x*z + two*w*y) (get3 pose 0))
       (mkArr4 (two*x*y + two*w*z) (one - two*x*x - two*z*z)
               (two*y*z - two*w*x) (get3 pose 1))
       (mkArr4 (two*x*z - two*w*y) (two*y*z + two*w*x)
               (one - two*x*x - two*y*y) (get3 pose 2))).
Proof. vm_compute. reflexivity. Qed.

Lemma Invert_unfold (T : Transform A) :
  Invert T =
  tabulate (fun i j =>
    if Nat.ltb j 3 then mget T j i
    else sc_zero - mget T 0 i * mget T 0 3 - mget T 1 i * mget T 1 3
                 - mget T 2 i * mget T 2 3).
Proof. destruct T as [[[] [] []]]. vm_compute. reflexivity. Qed.

Lemma Compose_unfold (T1 T2 : Transform A) :
  Compose T1 T2 =
  tabulate (fun i j =>
    if Nat.ltb j 3 then
      sc_zero + mget T1 i 0 * mget T2 0 j + mget T1 i 1 * mget T2 1 j
              + mget T1 i 2 * mget T2 2 j
    else
      mget T1 i 3 + mget T1 i 0 * mget T2 0 3 + mget T1 i 1 * mget T2 1 3
                  + mget T1 i 2 * mget T2 2 3).
Proof.
  destruct T1 as [[[] [] []]], T2 as [[[] [] []]]. vm_compute. reflexivity.
Qed.

Lemma rigid_blocks (T : Transform A) : rigid (rotation T) (translation T) = T.
Proof. destruct T as [[[] [] []]]. reflexivity. Qed.

(** [PoseQuatToMatrix] overwrites all twelve entries of its object. *)
Lemma PoseQuatToMatrix_value pose quat transform (m : Mem A) :
  PoseQuatToMatrix pose quat transform m transform = Encode pose quat.
Proof.
  pose (rho := fun _ : nat => transform).
  assert (H : agree 1 rho m (fun _ => m transform)) by (intros a _; reflexivity).
  apply (@PoseQuatToMatrix_agree A SA 1 rho pose quat 0) in H;
    [ | lia | intros b Hb _; lia ].
  specialize (H 0 Nat.lt_0_1). cbv beta delta [rho] in H. rewrite H.
  generalize (m transform). intros [[[] [] []]]. vm_compute. reflexivity.
Qed.

Lemma InvertTransform_value input output (m : Mem A) :
  input <> output ->
  InvertTransform input output m output = Invert (m input).
Proof.
  intros Hne.
  pose (rho := fun k : nat => match k with 0 => input | _ => output end).
  assert (H : agree 2 rho m
                (fun k => match k with 0 => m input | _ => m output end)).
  { intros [|[|a]] Ha; [reflexivity | reflexivity | lia]. }
  apply (@InvertTransform_agree A SA 2 rho 0 1) in H; [ | lia | lia | ].
  - specialize (H 1 Nat.lt_1_2). cbv beta iota delta [rho] in H. rewrite H.
    generalize (m input), (m output).
    intros [[[] [] []]] [[[] [] []]]. vm_compute. reflexivity.
  - intros [|[|b]] Hb E; cbv beta iota delta [rho] in E;
      [congruence | reflexivity | lia].
Qed.

Lemma MultiplyTransforms_value t1 t2 result (m : Mem A) :
  result <> t1 -> result <> t2 ->
  MultiplyTransforms t1 t2 result m result = Compose (m t1) (m t2).
Proof.
  intros Hne1 Hne2.
  pose (rho := fun k : nat =>
                 match k with 0 => t1 | 1 => t2 | _ => result end).
  assert (H : agree 3 rho m
                (fun k => match k with
                          | 0 => m t1 | 1 => m t2 | _ => m result end)).
  { intros [|[|[|a]]] Ha; [reflexivity | reflexivity | reflexivity | lia]. }
  apply (@MultiplyTransforms_agree A SA 3 rho 0 1 2) in H;
    [ | lia | lia | lia | ].
  - specialize (H 2 (Nat.lt_succ_diag_r 2)).
    cbv beta iota delta [rho] in H. rewrite H.
    generalize (m t1), (m t2), (m result).
    intros [[[] [] []]] [[[] [] []]] [[[] [] []]]. vm_compute. reflexivity.
  - intros [|[|[|b]]] Hb E; cbv beta iota delta [rho] in E;
      [congruence | congruence | reflexivity | lia].
Qed.

(** No function touches an object other than its output. *)
Lemma PoseQuatToMatrix_frame pose quat transform (m : Mem A) r :
  r <> transform -> PoseQuatToMatrix pose quat transform m r = m r.
Proof.
  intros Hne. unfold PoseQuatToMatrix. cbv zeta.
  now rewrite !store_other by exact Hne.
Qed.

Lemma InvertTransform_frame input output (m : Mem A) r :
  r <> output -> InvertTransform input output m r = m r.
Proof.
  intros Hne. unfold InvertTransform. cbv zeta.
  repeat (apply for_range_inv; [intros ? ? ? | ]);
    rewrite ?store_other by exact Hne; auto.
Qed.

Lemma MultiplyTransforms_frame t1 t2 result (m : Mem A) r :
  r <> result -> MultiplyTransforms t1 t2 result m r = m r.
Proof.
  intros Hne. unfold MultiplyTransforms. cbv zeta.
  repeat (apply for_range_inv; [intros ? ? ? | ]);
    rewrite ?store_other by exact Hne; auto.
Qed.

End Results.

(* ================================================================== *)
(** ** The evaluator *)

Section Evaluator.

Context {A : Type} {SA : Scalar A}.
Variable CHtc_Vive_Tracker : Type.
Variable GetDevicePoseQuaternion :
  CHtc_Vive_Tracker -> string -> CHtc_Vive_Tracker * bool * Arr3 A * Arr4 A.

Lemma ExtractPosition_translation transform position (m : Mem A) :
  ExtractPosition transform position m = translation (m transform).
Proof. destruct position. reflexivity. Qed.

(** Both queries succeeded: the stack and the old content of the buffer do
    not matter, the console is left alone. *)
Lemma ComputeRelativePosition_success vt vt1 vt2 controller_name tracker_name
    controller_pose controller_quat tracker_pose tracker_quat
    relative_position cout stack :
  GetDevicePoseQuaternion vt controller_name =
    (vt1, true, controller_pose, controller_quat) ->
  GetDevicePoseQuaternion vt1 tracker_name =
    (vt2, true, tracker_pose, tracker_quat) ->
  ComputeRelativePosition GetDevicePoseQuaternion vt controller_name
    tracker_name relative_position cout stack =
  (vt2, cout,
   translation (Compose (Invert (Encode tracker_pose tracker_quat))
                        (Encode controller_pose controller_quat))).
Proof.
  intros Hc Ht. unfold ComputeRelativePosition. rewrite Hc, Ht.
  cbn [negb orb]. rewrite ExtractPosition_translation.
  unfold T_world_controller, T_world_tracker, T_tracker_world,
    T_tracker_controller.
  rewrite MultiplyTransforms_value by discriminate.
  rewrite InvertTransform_value by discriminate.
  rewrite InvertTransform_frame by discriminate.
  rewrite PoseQuatToMatrix_value.
  rewrite PoseQuatToMatrix_frame by discriminate.
  rewrite PoseQuatToMatrix_value.
  reflexivity.
Qed.

(** A query failed: the message is printed and the buffer is zeroed. *)
Lemma ComputeRelativePosition_failure vt vt1 vt2 controller_name tracker_name
    controller_success tracker_success
    controller_pose controller_quat tracker_pose tracker_quat
    relative_position cout stack :
  GetDevicePoseQuaternion vt controller_name =
    (vt1, controller_success, controller_pose, controller_quat) ->
  GetDevicePoseQuaternion vt1 tracker_name =
    (vt2, tracker_success, tracker_pose, tracker_quat) ->
  controller_success = false \/ tracker_success = false ->
  ComputeRelativePosition GetDevicePoseQuaternion vt controller_name
    tracker_name relative_position cout stack =
  (vt2, cout ++ ["Error: Could not get poses for both devices"%string],
   mkArr3 sc_zero sc_zero sc_zero).
Proof.
  intros Hc Ht Hfail. unfold ComputeRelativePosition. rewrite Hc, Ht.
  assert (E : negb controller_success || negb tracker_success = true).
  { destruct Hfail; subst; [reflexivity | apply orb_true_r]. }
  rewrite E. destruct relative_position. reflexivity.
Qed.

End Evaluator.

(* ================================================================== *)
(** ** The pose encoder *)

(** C4.  For every position [(p0, p1, p2)] and quaternion [(w, x, y, z)],
    whatever the object held before, [PoseQuatToMatrix] leaves in it the
    rotation block
    [[1-2yy-2zz, 2xy-2wz, 2xz+2wy], [2xy+2wz, 1-2xx-2zz, 2yz-2wx],
    [2xz-2wy, 2yz+2wx, 1-2xx-2yy]] and the translation block [(p0, p1, p2)].
    The quaternion enters the entries as it is given, for every scalar
    arithmetic and with no assumption on its norm: nothing is normalised. *)
Theorem PoseQuatToMatrix_standard_matrix :
  forall (A : Type) (SA : Scalar A) (p0 p1 p2 w x y z : A) (transform : Ref)
         (m : Mem A),
    let one := sc_one in
    let two := sc_two in
    let T :=
      PoseQuatToMatrix (mkArr3 p0 p1 p2) (mkArr4 w x y z) transform m
        transform in
    (rotation T =
     mkArr3
       (mkArr3 (one - two*y*y - two*z*z) (two*x*y - two*w*z)
               (two*x*z + two*w*y))
       (mkArr3 (two*x*y + two*w*z) (one - two*x*x - two*z*z)
               (two*y*z - two*w*x))
       (mkArr3 (two*x*z - two*w*y) (two*y*z + two*w*x)
               (one - two*x*x - two*y*y))
     /\ translation T = mkArr3 p0 p1 p2)%sc.
Proof.
  intros. subst T. rewrite PoseQuatToMatrix_value, Encode_unfold.
  split; reflexivity.
Qed.

(* ================================================================== *)
(** ** The functions over the reals *)

Import Spec.
Local Open Scope R_scope.

Ltac entrywise :=
  repeat match goal with
  | |- mkTransform _ = mkTransform _ => apply f_equal
  | |- mkArr3 _ _ _ = mkArr3 _ _ _ => apply f_equal3
  | |- mkArr4 _ _ _ _ = mkArr4 _ _ _ _ => apply f_equal4
  end.

Ltac spec_unfold :=
  cbv [Encode_spec Invert_spec Compose_spec quat_rotation rigid tabulate
       rotation translation transpose mat vec entry mat_mul mat_vec vec_add
       vec_opp I3 zero3 identity det apply wrong_order_translation
       unit_quaternion pow
       get3 get4 mget matrix a3_0 a3_1 a3_2 a4_0 a4_1 a4_2 a4_3
       Nat.ltb Nat.leb Nat.eqb
       sc_zero sc_one sc_two sc_add sc_sub sc_mul Scalar_R].

Lemma Encode_spec_correct pose quat : Encode pose quat = Encode_spec pose quat.
Proof.
  rewrite Encode_unfold. destruct pose, quat. spec_unfold. entrywise; ring.
Qed.

Lemma Invert_spec_correct T : Invert T = Invert_spec T.
Proof.
  rewrite Invert_unfold. destruct T as [[[] [] []]]. spec_unfold.
  entrywise; ring.
Qed.

Lemma Compose_spec_correct TA TB : Compose TA TB = Compose_spec TA TB.
Proof.
  rewrite Compose_unfold. destruct TA as [[[] [] []]], TB as [[[] [] []]].
  spec_unfold. entrywise; ring.
Qed.

Lemma rotation_rigid (M : Mat3) (t : Vec3) : rotation (rigid M t) = M.
Proof. destruct M as [[] [] []]. reflexivity. Qed.

Lemma translation_rigid (M : Mat3) (t : Vec3) : translation (rigid M t) = t.
Proof. destruct t. reflexivity. Qed.

(** Columns orthonormal implies rows orthonormal. *)
Lemma orthonormal_rows M : orthonormal M -> mat_mul M (transpose M) = I3.
Proof.
  destruct M as [[a b c] [d e f] [g h i]]. unfold orthonormal. spec_unfold.
  intros H. injection H as H1 H2 H3 H4 H5 H6 H7 H8 H9.
  entrywise; nsatz.
Qed.

Lemma quat_rotation_valid q :
  unit_quaternion q ->
  orthonormal (quat_rotation q) /\ det (quat_rotation q) = 1.
Proof.
  destruct q as [w x y z]. unfold orthonormal. spec_unfold.
  intros H. split.
  - entrywise; nsatz.
  - nsatz.
Qed.

(** [T] maps the translation of [Invert_spec T ; T'] back to that of [T']. *)
Lemma apply_relative T T' :
  orthonormal (rotation T) ->
  apply T (translation (Compose_spec (Invert_spec T) T')) = translation T'.
Proof.
  intros Ho. apply orthonormal_rows in Ho. revert Ho.
  destruct T as [[[a b c tx] [d e f ty] [g h i tz]]],
           T' as [[[a' b' c' tx'] [d' e' f' ty'] [g' h' i' tz']]].
  spec_unfold. intros Hr.
  injection Hr as G1 G2 G3 G4 G5 G6 G7 G8 G9.
  entrywise; nsatz.
Qed.

(* ================================================================== *)
(** ** The transform inverter *)

(** C5.  [InvertTransform] is a total function of the memory.  When
    [output] is not the object [input], it leaves in [output] the rotation
    [R^T] and the translation [- R^T t] of the input [[R | t]]; the
    translation is the negated product of the rows of the rotation it has
    just written to [output] with the input translation; no other object
    changes. *)
Theorem InvertTransform_transpose :
  forall (m : Mem R) (input output : Ref),
    input <> output ->
    let m' := InvertTransform input output m in
    rotation (m' output) = transpose (rotation (m input)) /\
    translation (m' output) =
      vec_opp (mat_vec (transpose (rotation (m input)))
                       (translation (m input))) /\
    translation (m' output) =
      vec_opp (mat_vec (rotation (m' output)) (translation (m input))) /\
    (forall r, r <> output -> m' r = m r).
Proof.
  intros m input output Hne m'.
  assert (E : m' output = Invert_spec (m input)).
  { subst m'. rewrite InvertTransform_value by exact Hne.
    apply Invert_spec_correct. }
  rewrite E. unfold Invert_spec. rewrite rotation_rigid, translation_rigid.
  repeat split.
  intros r Hr. apply InvertTransform_frame, Hr.
Qed.

Lemma InvertTransform_transpose_witness :
  let m : Mem R := fun _ => Encode_spec (mkArr3 1 2 3) (mkArr4 0 0 0 1) in
  let m' := InvertTransform 0%nat 1%nat m in
  0%nat <> 1%nat /\
  rotation (m' 1%nat) = transpose (rotation (m 0%nat)) /\
  translation (m' 1%nat) =
    vec_opp (mat_vec (transpose (rotation (m 0%nat)))
                     (translation (m 0%nat))).
Proof.
  intros m m'.
  assert (Hne : 0%nat <> 1%nat) by discriminate.
  destruct (InvertTransform_transpose m Hne) as (Hr & Ht & _).
  exact (conj Hne (conj Hr Ht)).
Defined.

(** X22.  With [output] bound to the object of [input] the rotation is not
    transposed: the entries below the diagonal are copied over those above
    it before they are read. *)
Lemma InvertTransform_aliased (A : Type) (SA : Scalar A) (m : Mem A) r :
  let T := InvertTransform r r m r in
  (mget T 0 1 = mget (m r) 1 0 /\ mget T 1 0 = mget (m r) 1 0 /\
   mget T 0 2 = mget (m r) 2 0 /\ mget T 2 0 = mget (m r) 2 0 /\
   mget T 1 2 = mget (m r) 2 1 /\ mget T 2 1 = mget (m r) 2 1)%nat.
Proof.
  intros T. subst T.
  pose (rho := fun _ : nat => r).
  assert (H : agree 1 rho m (fun _ => m r)) by (intros a _; reflexivity).
  apply (@InvertTransform_agree A SA 1 rho 0 0) in H;
    [ | lia | lia | intros b Hb _; lia ].
  specialize (H 0%nat Nat.lt_0_1). cbv beta delta [rho] in H. rewrite H.
  generalize (m r). intros [[[] [] []]]. vm_compute. repeat split.
Qed.

(* ================================================================== *)
(** ** The transform composer *)

Lemma Compose_order_matters :
  exists TA TB : Transform R,
    translation (Compose TA TB) <> wrong_order_translation TA TB.
Proof.
  exists (Encode_spec (mkArr3 1 0 0) (mkArr4 1 0 0 0)),
         (Encode_spec (mkArr3 0 0 0) (mkArr4 0 0 0 1)).
  rewrite Compose_spec_correct. spec_unfold. intros H.
  injection H. intros. lra.
Qed.

(** C6.  When [result] is neither the object [t1] nor the object [t2],
    [MultiplyTransforms] leaves in [result] the rotation [R_A R_B] and the
    translation [t_A + R_A t_B] of [A = [R_A | t_A]] read from [t1] and
    [B = [R_B | t_B]] read from [t2], and changes no other object.  That is
    not [R_B t_A + t_B]: the two differ for some [A] and [B]. *)
Theorem MultiplyTransforms_product :
  forall (m : Mem R) (t1 t2 result : Ref),
    result <> t1 -> result <> t2 ->
    let m' := MultiplyTransforms t1 t2 result m in
    rotation (m' result) = mat_mul (rotation (m t1)) (rotation (m t2)) /\
    translation (m' result) =
      vec_add (translation (m t1))
              (mat_vec (rotation (m t1)) (translation (m t2))) /\
    (forall r, r <> result -> m' r = m r) /\
    (exists TA TB : Transform R,
        translation (Compose TA TB) <> wrong_order_translation TA TB).
Proof.
  intros m t1 t2 result H1 H2 m'.
  assert (E : m' result = Compose_spec (m t1) (m t2)).
  { subst m'. rewrite MultiplyTransforms_value by assumption.
    apply Compose_spec_correct. }
  rewrite E. unfold Compose_spec. rewrite rotation_rigid, translation_rigid.
  repeat split.
  - intros r Hr. apply MultiplyTransforms_frame, Hr.
  - exact Compose_order_matters.
Qed.

Lemma MultiplyTransforms_product_witness :
  let m : Mem R := fun r =>
    match r with
    | 0%nat => Encode_spec (mkArr3 1 0 0) (mkArr4 1 0 0 0)
    | _ => Encode_spec (mkArr3 0 2 0) (mkArr4 0 0 0 1)
    end in
  let m' := MultiplyTransforms 0%nat 1%nat 2%nat m in
  2%nat <> 0%nat /\ 2%nat <> 1%nat /\
  rotation (m' 2%nat) = mat_mul (rotation (m 0%nat)) (rotation (m 1%nat)) /\
  translation (m' 2%nat) =
    vec_add (translation (m 0%nat))
            (mat_vec (rotation (m 0%nat)) (translation (m 1%nat))).
Proof.
  intros m m'.
  assert (H0 : 2%nat <> 0%nat) by discriminate.
  assert (H1 : 2%nat <> 1%nat) by discriminate.
  destruct (MultiplyTransforms_product m H0 H1) as (Hr & Ht & _).
  exact (conj H0 (conj H1 (conj Hr Ht))).
Defined.

(* ================================================================== *)
(** ** Algebraic properties *)

(** Over the reals, for a quaternion of norm exactly 1, the rotation block
    [R] that [PoseQuatToMatrix] writes satisfies [R^T R = I] and
    [det R = 1] exactly.  Nothing is said here about the rounding of
    binary64. *)
Theorem encoder_orthonormal :
  forall (pose : Arr3 R) (quat : Arr4 R) (transform : Ref) (m : Mem R),
    unit_quaternion quat ->
    let Rm := rotation (PoseQuatToMatrix pose quat transform m transform) in
    mat_mul (transpose Rm) Rm = I3 /\ det Rm = 1.
Proof.
  intros pose quat transform m Hq Rm. subst Rm.
  rewrite PoseQuatToMatrix_value, Encode_spec_correct.
  unfold Encode_spec. rewrite rotation_rigid.
  exact (quat_rotation_valid Hq).
Qed.

Lemma encoder_orthonormal_witness :
  let quat := mkArr4 (3/5) 0 (4/5) 0 in
  let Rm :=
    rotation (PoseQuatToMatrix (mkArr3 1 2 3) quat 0%nat (fun _ => blank)
                0%nat) in
  unit_quaternion quat /\ mat_mul (transpose Rm) Rm = I3 /\ det Rm = 1.
Proof.
  intros quat Rm.
  assert (Hq : unit_quaternion quat) by (cbv [quat]; spec_unfold; lra).
  exact (conj Hq
           (encoder_orthonormal (mkArr3 1 2 3) 0%nat (fun _ => blank) Hq)).
Defined.



Lemma half_turn_valid : valid (Encode_spec (mkArr3 1 2 3) (mkArr4 0 0 0 1)).
Proof.
  unfold valid, orthonormal. spec_unfold. split; [entrywise | ]; ring.
Qed.




Lemma Invert_twice_stretch :
  exists T : Transform R, Invert (Invert T) <> T.
Proof.
  exists (rigid (mat (fun i j => if Nat.eqb i j then 2 else 0))
                (mkArr3 1 0 0)).
  rewrite !Invert_spec_correct. spec_unfold. intros H.
  injection H. intros. lra.
Qed.

(** C10.  Inverting twice gives back the rotation block of every transform,
    and the whole transform when its rotation block is orthonormal; without
    orthonormality the translation need not come back. *)
Theorem Invert_involutive :
  forall T : Transform R,
    rotation (Invert (Invert T)) = rotation T /\
    (orthonormal (rotation T) -> Invert (Invert T) = T) /\
    (exists T' : Transform R, Invert (Invert T') <> T').
Proof.
  intros T. rewrite !Invert_spec_correct. split; [ | split ].
  - destruct T as [[[] [] []]]. spec_unfold. entrywise; ring.
  - intros Ho. apply orthonormal_rows in Ho. revert Ho.
    destruct T as [[[a b c tx] [d e f ty] [g h i tz]]].
    spec_unfold. intros Hr.
    injection Hr as G1 G2 G3 G4 G5 G6 G7 G8 G9.
    entrywise; try reflexivity; nsatz.
  - exact Invert_twice_stretch.
Qed.

Lemma Invert_involutive_witness :
  let T := Encode_spec (mkArr3 1 2 3) (mkArr4 0 0 0 1) in
  orthonormal (rotation T) /\ Invert (Invert T) = T.
Proof.
  intros T. pose proof (proj1 half_turn_valid) as Ho.
  exact (conj Ho (proj1 (proj2 (Invert_involutive T)) Ho)).
Defined.

(* ================================================================== *)
(** ** The relative pose evaluator *)

(** C1.  When both queries succeed, the buffer holds the translation of
    [Compose (Invert (Encode tracker)) (Encode controller)], taken with the
    operations of sections 4.1 to 4.3; and when the tracker's quaternion is
    a unit quaternion, that vector is the controller's position in the
    tracker's local frame: the tracker's transform maps it to the
    controller's world position. *)
Theorem relative_position_in_tracker_frame :
  forall (VT : Type)
         (GetDevicePoseQuaternion :
            VT -> string -> VT * bool * Arr3 R * Arr4 R)
         (vt vt1 vt2 : VT) (controller_name tracker_name : string)
         (controller_pose : Arr3 R) (controller_quat : Arr4 R)
         (tracker_pose : Arr3 R) (tracker_quat : Arr4 R)
         (relative_position : Arr3 R) (cout : list string) (stack : Mem R),
    GetDevicePoseQuaternion vt controller_name =
      (vt1, true, controller_pose, controller_quat) ->
    GetDevicePoseQuaternion vt1 tracker_name =
      (vt2, true, tracker_pose, tracker_quat) ->
    let rel :=
      snd (ComputeRelativePosition GetDevicePoseQuaternion vt controller_name
             tracker_name relative_position cout stack) in
    rel =
      translation
        (Compose_spec (Invert_spec (Encode_spec tracker_pose tracker_quat))
                      (Encode_spec controller_pose controller_quat)) /\
    (unit_quaternion tracker_quat ->
     apply (Encode_spec tracker_pose tracker_quat) rel = controller_pose).
Proof.
  intros VT get vt vt1 vt2 cn tn cp cq tp tq rp cout stack Hc Ht rel.
  subst rel. erewrite ComputeRelativePosition_success by eassumption.
  cbn [snd].
  rewrite !Encode_spec_correct, Invert_spec_correct, Compose_spec_correct.
  split; [reflexivity | ].
  intros Hq. rewrite apply_relative.
  - unfold Encode_spec. apply translation_rigid.
  - unfold Encode_spec. rewrite rotation_rigid.
    exact (proj1 (quat_rotation_valid Hq)).
Qed.

Lemma relative_position_in_tracker_frame_witness :
  scenario (true, mkArr3 1 0 0, mkArr4 1 0 0 0)
           (true, mkArr3 0 0 0, mkArr4 0 0 0 1) tt "controller_1" =
    (tt, true, mkArr3 1 0 0, mkArr4 1 0 0 0) /\
  scenario (true, mkArr3 1 0 0, mkArr4 1 0 0 0)
           (true, mkArr3 0 0 0, mkArr4 0 0 0 1) tt "tracker_1" =
    (tt, true, mkArr3 0 0 0, mkArr4 0 0 0 1) /\
  snd (ComputeRelativePosition
         (scenario (true, mkArr3 1 0 0, mkArr4 1 0 0 0)
                   (true, mkArr3 0 0 0, mkArr4 0 0 0 1))
         tt "controller_1" "tracker_1" (mkArr3 7 8 9) [] (fun _ => blank)) =
    translation
      (Compose_spec (Invert_spec (Encode_spec (mkArr3 0 0 0) (mkArr4 0 0 0 1)))
                    (Encode_spec (mkArr3 1 0 0) (mkArr4 1 0 0 0))).
Proof.
  refine (conj eq_refl (conj eq_refl _)).
  exact (proj1
           (@relative_position_in_tracker_frame unit
              (scenario (true, mkArr3 1 0 0, mkArr4 1 0 0 0)
                        (true, mkArr3 0 0 0, mkArr4 0 0 0 1))
              tt tt tt "controller_1" "tracker_1"
              (mkArr3 1 0 0) (mkArr4 1 0 0 0) (mkArr3 0 0 0) (mkArr4 0 0 0 1)
              (mkArr3 7 8 9) [] (fun _ => blank) eq_refl eq_refl)).
Defined.

(** C2, as the specification states it, fails on the code: with the tracker
    lost the contract asks for [DeviceUnavailable] and no value, while the
    caller of [ComputeRelativePosition] is handed the position [(0, 0, 0)],
    from which [ComputeDistance] yields the distance [0]. *)
Lemma failure_not_reported :
  RelativePosition (true, mkArr3 1 0 0, mkArr4 1 0 0 0)
                   (false, mkArr3 0 0 0, mkArr4 1 0 0 0) =
    inl DeviceUnavailable /\
  delivered
    (ComputeRelativePosition
       (scenario (true, mkArr3 1 0 0, mkArr4 1 0 0 0)
                 (false, mkArr3 0 0 0, mkArr4 1 0 0 0))
       tt "controller_1" "tracker_1" (mkArr3 7 8 9) [] (fun _ => blank)) =
    inr (mkArr3 0 0 0) /\
  delivered
    (ComputeRelativePosition
       (scenario (true, mkArr3 1 0 0, mkArr4 1 0 0 0)
                 (false, mkArr3 0 0 0, mkArr4 1 0 0 0))
       tt "controller_1" "tracker_1" (mkArr3 7 8 9) [] (fun _ => blank)) <>
    inl DeviceUnavailable /\
  ComputeDistance
    (snd (ComputeRelativePosition
            (scenario (true, mkArr3 1 0 0, mkArr4 1 0 0 0)
                      (false, mkArr3 0 0 0, mkArr4 1 0 0 0))
            tt "controller_1" "tracker_1" (mkArr3 7 8 9) []
            (fun _ => blank))) = 0.
Proof.
  erewrite ComputeRelativePosition_failure;
    [ | reflexivity | reflexivity | right; reflexivity ].
  unfold delivered. cbn [snd]. repeat split.
  - discriminate.
  - cbv [ComputeDistance get3 a3_0 a3_1 a3_2 sc_zero sc_add sc_mul sc_sqrt
         Scalar_R].
    replace (0 * 0 + 0 * 0 + 0 * 0) with 0 by ring. exact sqrt_0.
Qed.

(** C2, amended.  In binary64, the arithmetic of the code: when the query
    for the controller or the query for the tracker fails,
    [ComputeRelativePosition] has made both queries, has appended the line
    "Error: Could not get poses for both devices" to the console and
    returns with the buffer set to [(0, 0, 0)]; it returns no failure
    value, and [ComputeDistance] of the buffer it leaves is [0]. *)
Theorem failure_prints_and_zeroes :
  forall (VT : Type)
         (GetDevicePoseQuaternion :
            VT -> string -> VT * bool * Arr3 float * Arr4 float)
         (vt vt1 vt2 : VT) (controller_name tracker_name : string)
         (controller_success tracker_success : bool)
         (controller_pose : Arr3 float) (controller_quat : Arr4 float)
         (tracker_pose : Arr3 float) (tracker_quat : Arr4 float)
         (relative_position : Arr3 float) (cout : list string)
         (stack : Mem float),
    GetDevicePoseQuaternion vt controller_name =
      (vt1, controller_success, controller_pose, controller_quat) ->
    GetDevicePoseQuaternion vt1 tracker_name =
      (vt2, tracker_success, tracker_pose, tracker_quat) ->
    controller_success = false \/ tracker_success = false ->
    ComputeRelativePosition GetDevicePoseQuaternion vt controller_name
      tracker_name relative_position cout stack =
    (vt2, cout ++ ["Error: Could not get poses for both devices"%string],
     mkArr3 0%float 0%float 0%float) /\
    ComputeDistance
      (snd (ComputeRelativePosition GetDevicePoseQuaternion vt
              controller_name tracker_name relative_position cout stack)) =
    0%float.
Proof.
  intros VT get vt vt1 vt2 cn tn ok1 ok2 cp cq tp tq rp cout stack Hc Ht Hf.
  erewrite ComputeRelativePosition_failure by eassumption.
  split; [reflexivity | ]. cbn [snd]. vm_compute. reflexivity.
Qed.

Lemma failure_prints_and_zeroes_witness :
  scenario (true, mkArr3 1 0 0, mkArr4 1 0 0 0)%float
           (false, mkArr3 0 0 0, mkArr4 1 0 0 0)%float tt "controller_1" =
    (tt, true, mkArr3 1 0 0, mkArr4 1 0 0 0)%float /\
  scenario (true, mkArr3 1 0 0, mkArr4 1 0 0 0)%float
           (false, mkArr3 0 0 0, mkArr4 1 0 0 0)%float tt "tracker_1" =
    (tt, false, mkArr3 0 0 0, mkArr4 1 0 0 0)%float /\
  (true = false \/ false = false) /\
  ComputeRelativePosition
    (scenario (true, mkArr3 1 0 0, mkArr4 1 0 0 0)%float
              (false, mkArr3 0 0 0, mkArr4 1 0 0 0)%float)
    tt "controller_1" "tracker_1" (mkArr3 7 8 9)%float [] (fun _ => blank) =
  (tt, ["Error: Could not get poses for both devices"%string],
   (mkArr3 0 0 0)%float) /\
  ComputeDistance
    (snd (ComputeRelativePosition
            (scenario (true, mkArr3 1 0 0, mkArr4 1 0 0 0)%float
                      (false, mkArr3 0 0 0, mkArr4 1 0 0 0)%float)
            tt "controller_1" "tracker_1" (mkArr3 7 8 9)%float []
            (fun _ => blank))) = 0%float.
Proof.
  refine (conj eq_refl (conj eq_refl (conj (or_intror eq_refl) _))).
  exact (@failure_prints_and_zeroes unit
           (scenario (true, mkArr3 1 0 0, mkArr4 1 0 0 0)%float
                     (false, mkArr3 0 0 0, mkArr4 1 0 0 0)%float)
           tt tt tt "controller_1" "tracker_1" true false
           (mkArr3 1 0 0)%float (mkArr4 1 0 0 0)%float
           (mkArr3 0 0 0)%float (mkArr4 1 0 0 0)%float
           (mkArr3 7 8 9)%float [] (fun _ => blank)
           eq_refl eq_refl (or_intror eq_refl)).
Defined.

(** C3.  In binary64, the arithmetic of the code: whenever a query fails,
    every one of the three components of the buffer is [+0.0], whatever the
    buffer held before, and [ComputeDistance] of that buffer is [+0.0]. *)
Theorem failure_zero_vector_zero_distance :
  forall (VT : Type)
         (GetDevicePoseQuaternion :
            VT -> string -> VT * bool * Arr3 float * Arr4 float)
         (vt vt1 vt2 : VT) (controller_name tracker_name : string)
         (controller_success tracker_success : bool)
         (controller_pose : Arr3 float) (controller_quat : Arr4 float)
         (tracker_pose : Arr3 float) (tracker_quat : Arr4 float)
         (relative_position : Arr3 float) (cout : list string)
         (stack : Mem float),
    GetDevicePoseQuaternion vt controller_name =
      (vt1, controller_success, controller_pose, controller_quat) ->
    GetDevicePoseQuaternion vt1 tracker_name =
      (vt2, tracker_success, tracker_pose, tracker_quat) ->
    controller_success = false \/ tracker_success = false ->
    let rel :=
      snd (ComputeRelativePosition GetDevicePoseQuaternion vt controller_name
             tracker_name relative_position cout stack) in
    get3 rel 0 = 0%float /\ get3 rel 1 = 0%float /\ get3 rel 2 = 0%float /\
    ComputeDistance rel = 0%float.
Proof.
  intros VT get vt vt1 vt2 cn tn ok1 ok2 cp cq tp tq rp cout stack Hc Ht Hf
         rel.
  subst rel. erewrite ComputeRelativePosition_failure by eassumption.
  cbn [snd]. vm_compute. repeat split.
Qed.

Lemma failure_zero_vector_zero_distance_witness :
  scenario (false, mkArr3 1 0 0, mkArr4 1 0 0 0)%float
           (true, mkArr3 0 0 0, mkArr4 1 0 0 0)%float tt "controller_1" =
    (tt, false, mkArr3 1 0 0, mkArr4 1 0 0 0)%float /\
  scenario (false, mkArr3 1 0 0, mkArr4 1 0 0 0)%float
           (true, mkArr3 0 0 0, mkArr4 1 0 0 0)%float tt "tracker_1" =
    (tt, true, mkArr3 0 0 0, mkArr4 1 0 0 0)%float /\
  (false = false \/ true = false) /\
  ComputeDistance
    (snd (ComputeRelativePosition
            (scenario (false, mkArr3 1 0 0, mkArr4 1 0 0 0)%float
                      (true, mkArr3 0 0 0, mkArr4 1 0 0 0)%float)
            tt "controller_1" "tracker_1" (mkArr3 7 8 9)%float []
            (fun _ => blank))) = 0%float.
Proof.
  refine (conj eq_refl (conj eq_refl (conj (or_introl eq_refl) _))).
  exact (proj2 (proj2 (proj2
           (@failure_zero_vector_zero_distance unit
              (scenario (false, mkArr3 1 0 0, mkArr4 1 0 0 0)%float
                        (true, mkArr3 0 0 0, mkArr4 1 0 0 0)%float)
              tt tt tt "controller_1" "tracker_1" false true
              (mkArr3 1 0 0)%float (mkArr4 1 0 0 0)%float
              (mkArr3 0 0 0)%float (mkArr4 1 0 0 0)%float
              (mkArr3 7 8 9)%float [] (fun _ => blank)
              eq_refl eq_refl (or_introl eq_refl))))).
Defined.

(* ================================================================== *)
(** ** The scenarios of section 8, run in binary64 *)

(** Coincident frames: position [(0, 0, 0)], distance [0]. *)
Example scenario_coincident_frames :
  evaluate (true, mkArr3 1 2 3, mkArr4 1 0 0 0)%float
           (true, mkArr3 1 2 3, mkArr4 1 0 0 0)%float (mkArr3 7 8 9)%float =
  ([], mkArr3 0 0 0, 0)%float.
Proof. vm_compute. reflexivity. Qed.

(** Pure translation: position [(1, 0, 0)], distance [1]. *)
Example scenario_pure_translation :
  evaluate (true, mkArr3 1 0 0, mkArr4 1 0 0 0)%float
           (true, mkArr3 0 0 0, mkArr4 1 0 0 0)%float (mkArr3 7 8 9)%float =
  ([], mkArr3 1 0 0, 1)%float.
Proof. vm_compute. reflexivity. Qed.

(** Tracker turned by 90 degrees about Z, with the rounded quaternion
    [(0.7071, 0, 0, 0.7071)]: position [(0, -1, 0)] and distance [1] up to
    [1e-3]. *)
Example scenario_quarter_turn :
  let '(_, relative_position, distance) :=
    evaluate (true, mkArr3 1 0 0, mkArr4 1 0 0 0)%float
             (true, mkArr3 0 0 0, mkArr4 0.7071 0 0 0.7071)%float
             (mkArr3 7 8 9)%float in
  (near3 1e-3 relative_position (mkArr3 0 (-1) 0) && near 1e-3 distance 1)%float
  = true.
Proof. vm_compute. reflexivity. Qed.

(** Unavailable tracker: the message, and zeros in place of a result. *)
Example scenario_unavailable_device :
  evaluate (true, mkArr3 1 0 0, mkArr4 1 0 0 0)%float
           (false, mkArr3 0 0 0, mkArr4 1 0 0 0)%float (mkArr3 7 8 9)%float =
  (["Error: Could not get poses for both devices"%string], mkArr3 0 0 0, 0)%float.
Proof. vm_compute. reflexivity. Qed.

(** In binary64 the round trip of C7 is met up to rounding only: for this
    pose every entry of [Compose T (Invert T)] is within [1e-9] of the
    identity, and not all are equal to it. *)
Example double_round_trip :
  let T := Encode (mkArr3 1.5 (-2) 0.25)%float (mkArr4 0.1 0.7 0.1 0.7)%float in
  near_transform 1e-9 (Compose T (Invert T)) identity_double = true /\
  near_transform 0 (Compose T (Invert T)) identity_double = false.
Proof. vm_compute. split; reflexivity. Qed.

(* ================================================================== *)
(** ** Further properties, for every scalar arithmetic *)

(** X1.  Reading the position back out of the matrix that
    [PoseQuatToMatrix] has just written gives the position that went in,
    for every quaternion, whatever the object and the buffer held before. *)
Theorem ExtractPosition_PoseQuatToMatrix :
  forall (A : Type) (SA : Scalar A) (pose position : Arr3 A) (quat : Arr4 A)
         (transform : Ref) (m : Mem A),
    ExtractPosition transform position
      (PoseQuatToMatrix pose quat transform m) = pose.
Proof.
  intros. rewrite ExtractPosition_translation, PoseQuatToMatrix_value,
    Encode_unfold. destruct pose. reflexivity.
Qed.

(** X2.  The four local [Transform] objects and the caller's buffer are
    used uninitialised; what they hold on entry never reaches the result of
    [ComputeRelativePosition], whether the queries succeed or fail. *)
Theorem ComputeRelativePosition_ignores_garbage :
  forall (A : Type) (SA : Scalar A) (VT : Type)
         (GetDevicePoseQuaternion :
            VT -> string -> VT * bool * Arr3 A * Arr4 A)
         (vt : VT) (controller_name tracker_name : string)
         (relative_position relative_position' : Arr3 A)
         (cout : list string) (stack stack' : Mem A),
    ComputeRelativePosition GetDevicePoseQuaternion vt controller_name
      tracker_name relative_position cout stack =
    ComputeRelativePosition GetDevicePoseQuaternion vt controller_name
      tracker_name relative_position' cout stack'.
Proof.
  intros A SA VT get vt cn tn rp rp' cout stack stack'.
  destruct (get vt cn) as [[[vt1 ok1] cp] cq] eqn:Hc.
  destruct (get vt1 tn) as [[[vt2 ok2] tp] tq] eqn:Ht.
  destruct ok1, ok2;
    try (erewrite !ComputeRelativePosition_failure by (try eassumption; auto);
         reflexivity).
  erewrite !ComputeRelativePosition_success by eassumption. reflexivity.
Qed.

Lemma Compose_translation_column (A : Type) (SA : Scalar A)
    (T T1 T2 : Transform A) :
  translation T1 = translation T2 ->
  translation (Compose T T1) = translation (Compose T T2).
Proof.
  intros H. rewrite !Compose_unfold.
  destruct T1 as [[[] [] []]], T2 as [[[] [] []]].
  cbv in H. injection H as -> -> ->. reflexivity.
Qed.

(** X3.  The orientation of the controller has no influence: two providers
    that give the same controller position and the same tracker pose lead
    to the same relative position, whatever quaternions they give for the
    controller. *)
Theorem controller_orientation_irrelevant :
  forall (A : Type) (SA : Scalar A) (VT VT' : Type)
         (GetDevicePoseQuaternion :
            VT -> string -> VT * bool * Arr3 A * Arr4 A)
         (GetDevicePoseQuaternion' :
            VT' -> string -> VT' * bool * Arr3 A * Arr4 A)
         (vt vt1 vt2 : VT) (vt' vt1' vt2' : VT')
         (controller_name tracker_name : string)
         (controller_pose : Arr3 A) (controller_quat controller_quat' : Arr4 A)
         (tracker_pose : Arr3 A) (tracker_quat : Arr4 A)
         (relative_position : Arr3 A) (cout : list string) (stack : Mem A),
    GetDevicePoseQuaternion vt controller_name =
      (vt1, true, controller_pose, controller_quat) ->
    GetDevicePoseQuaternion vt1 tracker_name =
      (vt2, true, tracker_pose, tracker_quat) ->
    GetDevicePoseQuaternion' vt' controller_name =
      (vt1', true, controller_pose, controller_quat') ->
    GetDevicePoseQuaternion' vt1' tracker_name =
      (vt2', true, tracker_pose, tracker_quat) ->
    snd (ComputeRelativePosition GetDevicePoseQuaternion vt controller_name
           tracker_name relative_position cout stack) =
    snd (ComputeRelativePosition GetDevicePoseQuaternion' vt' controller_name
           tracker_name relative_position cout stack).
Proof.
  intros A SA VT VT' get get' vt vt1 vt2 vt' vt1' vt2' cn tn cp cq cq' tp tq
         rp cout stack Hc Ht Hc' Ht'.
  erewrite (ComputeRelativePosition_success get) by eassumption.
  erewrite (ComputeRelativePosition_success get') by eassumption.
  cbn [snd]. apply Compose_translation_column.
  rewrite !Encode_unfold. reflexivity.
Qed.

Lemma controller_orientation_irrelevant_witness :
  scenario (true, mkArr3 1 2 3, mkArr4 1 0 0 0)%float
           (true, mkArr3 0 1 0, mkArr4 0 0 0 1)%float tt "controller_1" =
    (tt, true, mkArr3 1 2 3, mkArr4 1 0 0 0)%float /\
  scenario (true, mkArr3 1 2 3, mkArr4 1 0 0 0)%float
           (true, mkArr3 0 1 0, mkArr4 0 0 0 1)%float tt "tracker_1" =
    (tt, true, mkArr3 0 1 0, mkArr4 0 0 0 1)%float /\
  scenario (true, mkArr3 1 2 3, mkArr4 0 1 0 0)%float
           (true, mkArr3 0 1 0, mkArr4 0 0 0 1)%float tt "controller_1" =
    (tt, true, mkArr3 1 2 3, mkArr4 0 1 0 0)%float /\
  scenario (true, mkArr3 1 2 3, mkArr4 0 1 0 0)%float
           (true, mkArr3 0 1 0, mkArr4 0 0 0 1)%float tt "tracker_1" =
    (tt, true, mkArr3 0 1 0, mkArr4 0 0 0 1)%float /\
  snd (ComputeRelativePosition
         (scenario (true, mkArr3 1 2 3, mkArr4 1 0 0 0)%float
                   (true, mkArr3 0 1 0, mkArr4 0 0 0 1)%float)
         tt "controller_1" "tracker_1" (mkArr3 7 8 9)%float []
         (fun _ => blank)) =
  snd (ComputeRelativePosition
         (scenario (true, mkArr3 1 2 3, mkArr4 0 1 0 0)%float
                   (true, mkArr3 0 1 0, mkArr4 0 0 0 1)%float)
         tt "controller_1" "tracker_1" (mkArr3 7 8 9)%float []
         (fun _ => blank)).
Proof.
  refine (conj eq_refl (conj eq_refl (conj eq_refl (conj eq_refl _)))).
  exact (@controller_orientation_irrelevant float Scalar_double unit unit
           (scenario (true, mkArr3 1 2 3, mkArr4 1 0 0 0)%float
                     (true, mkArr3 0 1 0, mkArr4 0 0 0 1)%float)
           (scenario (true, mkArr3 1 2 3, mkArr4 0 1 0 0)%float
                     (true, mkArr3 0 1 0, mkArr4 0 0 0 1)%float)
           tt tt tt tt tt tt "controller_1" "tracker_1"
           (mkArr3 1 2 3)%float (mkArr4 1 0 0 0)%float (mkArr4 0 1 0 0)%float
           (mkArr3 0 1 0)%float (mkArr4 0 0 0 1)%float
           (mkArr3 7 8 9)%float [] (fun _ => blank)
           eq_refl eq_refl eq_refl eq_refl).
Defined.

(* ================================================================== *)
(** ** Further properties, over the reals *)

Lemma relative_translation T T' :
  translation (Compose_spec (Invert_spec T) T') =
  mat_vec (transpose (rotation T))
          (vec_add (translation T') (vec_opp (translation T))).
Proof.
  destruct T as [[[] [] []]], T' as [[[] [] []]]. spec_unfold.
  entrywise; ring.
Qed.


Section SuccessfulQueries.

Variable VT : Type.
Variable GetDevicePoseQuaternion : VT -> string -> VT * bool * Arr3 R * Arr4 R.
Variables vt vt1 vt2 : VT.
Variables controller_name tracker_name : string.
Variables (controller_pose tracker_pose : Arr3 R).
Variables (controller_quat tracker_quat : Arr4 R).
Variables (relative_position : Arr3 R) (cout : list string) (stack : Mem R).

Let rel : Arr3 R :=
  snd (ComputeRelativePosition GetDevicePoseQuaternion vt controller_name
         tracker_name relative_position cout stack).

(** X6.  With both queries successful the relative position is
    [R^T (p_c - p_t)], for the rotation matrix [R] of the tracker's
    quaternion and the world positions [p_c], [p_t]; no assumption on the
    quaternions is needed. *)
Theorem relative_position_closed_form :
  GetDevicePoseQuaternion vt controller_name =
    (vt1, true, controller_pose, controller_quat) ->
  GetDevicePoseQuaternion vt1 tracker_name =
    (vt2, true, tracker_pose, tracker_quat) ->
  rel = mat_vec (transpose (quat_rotation tracker_quat))
                (vec_add controller_pose (vec_opp tracker_pose)).
Proof.
  intros Hc Ht. subst rel.
  erewrite ComputeRelativePosition_success by eassumption. cbn [snd].
  rewrite !Encode_spec_correct, Invert_spec_correct, Compose_spec_correct.
  rewrite relative_translation. unfold Encode_spec.
  now rewrite rotation_rigid, !translation_rigid.
Qed.


End SuccessfulQueries.

Lemma relative_position_closed_form_witness :
  scenario (true, mkArr3 1 2 3, mkArr4 1 0 0 0)
           (true, mkArr3 0 1 0, mkArr4 0 0 0 1) tt "controller_1" =
    (tt, true, mkArr3 1 2 3, mkArr4 1 0 0 0) /\
  scenario (true, mkArr3 1 2 3, mkArr4 1 0 0 0)
           (true, mkArr3 0 1 0, mkArr4 0 0 0 1) tt "tracker_1" =
    (tt, true, mkArr3 0 1 0, mkArr4 0 0 0 1) /\
  snd (ComputeRelativePosition
         (scenario (true, mkArr3 1 2 3, mkArr4 1 0 0 0)
                   (true, mkArr3 0 1 0, mkArr4 0 0 0 1))
         tt "controller_1" "tracker_1" (mkArr3 7 8 9) [] (fun _ => blank)) =
  mat_vec (transpose (quat_rotation (mkArr4 0 0 0 1)))
          (vec_add (mkArr3 1 2 3) (vec_opp (mkArr3 0 1 0))).
Proof.
  refine (conj eq_refl (conj eq_refl _)).
  exact (@relative_position_closed_form unit
           (scenario (true, mkArr3 1 2 3, mkArr4 1 0 0 0)
                     (true, mkArr3 0 1 0, mkArr4 0 0 0 1))
           tt tt tt "controller_1" "tracker_1"
           (mkArr3 1 2 3) (mkArr3 0 1 0) (mkArr4 1 0 0 0) (mkArr4 0 0 0 1)
           (mkArr3 7 8 9) [] (fun _ => blank) eq_refl eq_refl).
Defined.



(** X9.  [Compose] is composition of the maps on points: the transform
    written by [MultiplyTransforms] for [A] and [B] sends a point to where
    [A] sends the image of the point under [B]. *)
Theorem apply_Compose :
  forall (TA TB : Transform R) (p : Vec3),
    apply (Compose TA TB) p = apply TA (apply TB p).
Proof.
  intros TA TB p. rewrite Compose_spec_correct.
  destruct TA as [[[] [] []]], TB as [[[] [] []]], p. spec_unfold.
  entrywise; ring.
Qed.

(** X10.  For an orthonormal rotation block, the transform written by
    [InvertTransform] undoes the transform on points, on either side. *)
Theorem apply_Invert :
  forall (T : Transform R) (p : Vec3),
    orthonormal (rotation T) ->
    apply (Invert T) (apply T p) = p /\ apply T (apply (Invert T) p) = p.
Proof.
  intros T p Ho. pose proof (orthonormal_rows Ho) as Hr. revert Ho Hr.
  rewrite Invert_spec_correct. unfold orthonormal.
  destruct T as [[[a b c tx] [d e f ty] [g h i tz]]], p as [x y z].
  spec_unfold. intros Ho Hr.
  injection Ho as H1 H2 H3 H4 H5 H6 H7 H8 H9.
  injection Hr as G1 G2 G3 G4 G5 G6 G7 G8 G9.
  split; entrywise; nsatz.
Qed.

Lemma apply_Invert_witness :
  orthonormal (rotation (Encode_spec (mkArr3 1 2 3) (mkArr4 0 0 0 1))) /\
  apply (Invert (Encode_spec (mkArr3 1 2 3) (mkArr4 0 0 0 1)))
        (apply (Encode_spec (mkArr3 1 2 3) (mkArr4 0 0 0 1)) (mkArr3 4 5 6)) =
  mkArr3 4 5 6.
Proof.
  exact (conj (proj1 half_turn_valid)
           (proj1 (@apply_Invert _ (mkArr3 4 5 6) (proj1 half_turn_valid)))).
Defined.

(** X11.  The identity transform is neutral for [Compose] on both sides. *)
Theorem Compose_identity :
  forall T : Transform R, Compose identity T = T /\ Compose T identity = T.
Proof.
  intros T. rewrite !Compose_spec_correct. destruct T as [[[] [] []]].
  spec_unfold. split; entrywise; ring.
Qed.

(** X12.  Inverting a composition reverses the order:
    [Invert (Compose A B) = Compose (Invert B) (Invert A)] when the rotation
    block of [A] is orthonormal. *)
Theorem Invert_Compose :
  forall TA TB : Transform R,
    orthonormal (rotation TA) ->
    Invert (Compose TA TB) = Compose (Invert TB) (Invert TA).
Proof.
  intros TA TB Ho.
  rewrite !Invert_spec_correct, !Compose_spec_correct. revert Ho.
  unfold orthonormal.
  destruct TA as [[[a b c tx] [d e f ty] [g h i tz]]], TB as [[[] [] []]].
  spec_unfold. intros Ho. injection Ho as H1 H2 H3 H4 H5 H6 H7 H8 H9.
  entrywise; nsatz.
Qed.

Lemma Invert_Compose_witness :
  orthonormal (rotation (Encode_spec (mkArr3 1 2 3) (mkArr4 0 0 0 1))) /\
  Invert (Compose (Encode_spec (mkArr3 1 2 3) (mkArr4 0 0 0 1))
                  (Encode_spec (mkArr3 0 1 0) (mkArr4 1 0 0 0))) =
  Compose (Invert (Encode_spec (mkArr3 0 1 0) (mkArr4 1 0 0 0)))
          (Invert (Encode_spec (mkArr3 1 2 3) (mkArr4 0 0 0 1))).
Proof.
  exact (conj (proj1 half_turn_valid)
           (@Invert_Compose _ (Encode_spec (mkArr3 0 1 0) (mkArr4 1 0 0 0))
              (proj1 half_turn_valid))).
Defined.

(** X13.  Valid rigid transforms are closed under [Compose]: the product
    of two transforms with orthonormal rotation of determinant 1 has an
    orthonormal rotation of determinant 1. *)
Theorem valid_Compose :
  forall TA TB : Transform R, valid TA -> valid TB -> valid (Compose TA TB).
Proof.
  intros TA TB [Ho Hd] [Ho' Hd']. revert Ho Hd Ho' Hd'.
  rewrite Compose_spec_correct. unfold valid, orthonormal.
  destruct TA as [[[a b c tx] [d e f ty] [g h i tz]]],
           TB as [[[a' b' c' tx'] [d' e' f' ty'] [g' h' i' tz']]].
  spec_unfold. intros Ho Hd Ho' Hd'.
  injection Ho as H1 H2 H3 H4 H5 H6 H7 H8 H9.
  injection Ho' as G1 G2 G3 G4 G5 G6 G7 G8 G9.
  split; [entrywise; nsatz | nsatz].
Qed.

Lemma valid_Compose_witness :
  valid (Encode_spec (mkArr3 1 2 3) (mkArr4 0 0 0 1)) /\
  valid (Compose (Encode_spec (mkArr3 1 2 3) (mkArr4 0 0 0 1))
                 (Encode_spec (mkArr3 1 2 3) (mkArr4 0 0 0 1))).
Proof.
  exact (conj half_turn_valid (valid_Compose half_turn_valid half_turn_valid)).
Defined.

(** X14.  Valid rigid transforms are closed under [Invert]. *)
Theorem valid_Invert :
  forall T : Transform R, valid T -> valid (Invert T).
Proof.
  intros T [Ho Hd]. pose proof (orthonormal_rows Ho) as Hr. revert Ho Hr Hd.
  rewrite Invert_spec_correct. unfold valid, orthonormal.
  destruct T as [[[a b c tx] [d e f ty] [g h i tz]]]. spec_unfold.
  intros Ho Hr Hd.
  injection Ho as H1 H2 H3 H4 H5 H6 H7 H8 H9.
  injection Hr as G1 G2 G3 G4 G5 G6 G7 G8 G9.
  split; [entrywise; assumption | rewrite <- Hd; ring].
Qed.

Lemma valid_Invert_witness :
  valid (Encode_spec (mkArr3 1 2 3) (mkArr4 0 0 0 1)) /\
  valid (Invert (Encode_spec (mkArr3 1 2 3) (mkArr4 0 0 0 1))).
Proof.
  exact (conj half_turn_valid (valid_Invert half_turn_valid)).
Defined.

(** X15.  A quaternion and its negative give the same matrix. *)
Theorem PoseQuatToMatrix_quaternion_sign :
  forall (pose : Arr3 R) (w x y z : R) (transform : Ref) (m : Mem R),
    PoseQuatToMatrix pose (mkArr4 (-w) (-x) (-y) (-z)) transform m transform =
    PoseQuatToMatrix pose (mkArr4 w x y z) transform m transform.
Proof.
  intros pose w x y z transform m.
  rewrite !PoseQuatToMatrix_value, !Encode_unfold. destruct pose.
  spec_unfold. entrywise; ring.
Qed.

(** X16.  Since nothing is normalised, the rotation block that
    [PoseQuatToMatrix] writes is orthonormal exactly when the quaternion is
    a unit quaternion or its vector part [(x, y, z)] is zero; in the second
    case, the zero quaternion included, the block is the identity. *)
Theorem encoder_orthonormal_iff :
  forall (pose : Arr3 R) (quat : Arr4 R) (transform : Ref) (m : Mem R),
    (orthonormal
       (rotation (PoseQuatToMatrix pose quat transform m transform)) <->
     unit_quaternion quat \/
     (get4 quat 1 = 0 /\ get4 quat 2 = 0 /\ get4 quat 3 = 0)) /\
    (get4 quat 1 = 0 /\ get4 quat 2 = 0 /\ get4 quat 3 = 0 ->
     rotation (PoseQuatToMatrix pose quat transform m transform) = I3).
Proof.
  intros pose quat transform m.
  rewrite PoseQuatToMatrix_value, Encode_spec_correct. unfold Encode_spec.
  rewrite rotation_rigid.
  assert (Hid : get4 quat 1 = 0 /\ get4 quat 2 = 0 /\ get4 quat 3 = 0 ->
                quat_rotation quat = I3).
  { intros (Hx & Hy & Hz). destruct quat as [w x y z].
    cbv [get4 a4_1 a4_2 a4_3] in Hx, Hy, Hz. subst.
    spec_unfold. entrywise; ring. }
  split; [split | exact Hid].
  - destruct quat as [w x y z]. unfold orthonormal. spec_unfold. intros H.
    injection H as H1 H2 H3 H4 H5 H6 H7 H8 H9.
    destruct (Req_dec (w * (w * 1) + x * (x * 1) + y * (y * 1) + z * (z * 1))
                      1) as [E|E]; [left; exact E | right].
    assert (K1 : (1 - (w*w + x*x + y*y + z*z)) * (y*y + z*z) = 0) by nsatz.
    assert (K2 : (1 - (w*w + x*x + y*y + z*z)) * (x*x + z*z) = 0) by nsatz.
    apply Rmult_integral in K1. apply Rmult_integral in K2.
    destruct K1 as [K1|K1]; [exfalso; apply E; lra | ].
    destruct K2 as [K2|K2]; [exfalso; apply E; lra | ].
    repeat split; nra.
  - intros [Hq | Hv].
    + exact (proj1 (quat_rotation_valid Hq)).
    + rewrite (Hid Hv). unfold orthonormal. spec_unfold. entrywise; ring.
Qed.

(** X17.  [MultiplyTransforms] does not work in place: with [result] bound
    to the object of [t1] and the identity transform in [t2], the rotation
    block of the object ends up all zero instead of unchanged (each entry is
    zeroed before it is read); the translation is kept. *)
Theorem MultiplyTransforms_in_place_identity :
  forall (m : Mem R) (t2 r : Ref),
    r <> t2 -> m t2 = identity ->
    rotation (MultiplyTransforms r t2 r m r) = mat (fun _ _ => 0) /\
    translation (MultiplyTransforms r t2 r m r) = translation (m r).
Proof.
  intros m t2 r Hne Hid.
  pose (rho := fun k : nat => match k with 0%nat => r | _ => t2 end).
  assert (H : agree 2 rho m
                (fun k => match k with 0%nat => m r | _ => m t2 end)).
  { intros [|[|a]] Ha; [reflexivity | reflexivity | lia]. }
  apply (@MultiplyTransforms_agree R _ 2 rho 0 1 0) in H;
    [ | lia | lia | lia | ].
  - specialize (H 0%nat Nat.lt_0_2). cbv beta iota delta [rho] in H.
    rewrite H, Hid. generalize (m r).
    intros [[[a b c tx] [d e f ty] [g h i tz]]].
    cbv [MultiplyTransforms for_range fold_left seq Nat.sub store load mset
         mget set3 set4 get3 get4 Nat.eqb matrix a3_0 a3_1 a3_2 a4_0 a4_1
         a4_2 a4_3 identity rigid tabulate I3 zero3 mat vec rotation
         translation Nat.ltb Nat.leb sc_zero sc_add sc_mul Scalar_R].
    split; entrywise; ring.
  - intros [|[|b]] Hb E; cbv beta iota delta [rho] in E;
      [reflexivity | congruence | lia].
Qed.

Lemma MultiplyTransforms_in_place_identity_witness :
  0%nat <> 1%nat /\
  (fun _ : Ref => identity) 1%nat = identity /\
  rotation (MultiplyTransforms 0%nat 1%nat 0%nat (fun _ => identity) 0%nat) =
    mat (fun _ _ => 0).
Proof.
  assert (Hne : 0%nat <> 1%nat) by discriminate.
  exact (conj Hne (conj eq_refl
           (proj1 (@MultiplyTransforms_in_place_identity
                     (fun _ => identity) 1%nat 0%nat Hne eq_refl)))).
Defined.

(* ================================================================== *)
(** ** The start of [main] *)

Lemma parse_arguments_help argv0 arguments verbose cout :
  In "-h"%string arguments ->
  parse_arguments argv0 arguments verbose cout = inr (cout ++ usage argv0).
Proof.
  revert verbose. induction arguments as [|a l IH]; intros verbose Hin.
  - destruct Hin.
  - cbn [parse_arguments]. destruct (String.eqb_spec a "-h") as [E|E].
    + reflexivity.
    + apply IH. destruct Hin as [Hin|Hin]; [congruence | exact Hin].
Qed.

Lemma parse_arguments_run argv0 arguments verbose cout :
  ~ In "-h"%string arguments ->
  parse_arguments argv0 arguments verbose cout =
  inl (verbose || existsb (fun a => String.eqb a "-v") arguments).
Proof.
  revert verbose. induction arguments as [|a l IH]; intros verbose Hin.
  - cbn. now rewrite orb_false_r.
  - cbn [parse_arguments existsb].
    destruct (String.eqb_spec a "-h") as [E|E].
    + elim Hin. left. exact E.
    + rewrite IH by (intros H; apply Hin; right; exact H).
      destruct (String.eqb a "-v"), verbose; reflexivity.
Qed.

Lemma existsb_verbose arguments :
  existsb (fun a => String.eqb a "-v") arguments = true <->
  In "-v"%string arguments.
Proof.
  rewrite existsb_exists. split.
  - intros (a & Hin & E). apply String.eqb_eq in E. now subst.
  - intros Hin. exists "-v"%string. split; [exact Hin | reflexivity].
Qed.

Section MainProperties.

Variable VT : Type.
Variable InitializeVR : VT -> bool -> VT * bool.
Variable GetAllDeviceNames : VT -> VT * list string.
Variable PrintAllDetectedDevices : VT -> VT.
Variable IsDeviceDetected : VT -> string -> VT * bool.

Let run : list string -> VT -> list string * Outcome VT :=
  main InitializeVR GetAllDeviceNames PrintAllDetectedDevices
       IsDeviceDetected.

(** X18.  With [-h] among the arguments after [argv[0]], [main] prints the
    five usage lines with [argv[0]] in the first and returns 0, whatever
    else is on the command line and whatever the provider would answer. *)
Theorem main_help :
  forall (argv : list string) (vt : VT),
    In "-h"%string (tl argv) ->
    run argv vt = (usage (nth 0 argv ""%string), Returns 0).
Proof.
  intros argv vt Hin. subst run. unfold main.
  now rewrite parse_arguments_help by exact Hin.
Qed.

(** X19.  [main] returns 0 exactly when [-h] is among the arguments; any
    other return of [main] has status 1. *)
Theorem main_status :
  forall (argv : list string) (vt : VT),
    (snd (run argv vt) = Returns 0 <-> In "-h"%string (tl argv)) /\
    (forall status, snd (run argv vt) = Returns status -> (status <= 1)%nat).
Proof.
  intros argv vt.
  destruct (in_dec string_dec "-h"%string (tl argv)) as [Hin|Hin].
  - subst run. unfold main. rewrite parse_arguments_help by exact Hin.
    cbn [snd]. split.
    + split; auto.
    + intros status E. injection E as <-. lia.
  - subst run. unfold main. rewrite parse_arguments_run by exact Hin.
    destruct (InitializeVR vt _) as [vt1 [|]]; cbn [negb];
      [ | cbn [snd]; split;
          [ split; [discriminate | contradiction]
          | intros status E; injection E as <-; lia ] ].
    destruct (GetAllDeviceNames vt1) as [vt2 names].
    destruct (Nat.eqb (length names) 1);
      [ cbn [snd]; split;
          [ split; [discriminate | contradiction]
          | intros status E; injection E as <-; lia ] | ].
    destruct (IsDeviceDetected (PrintAllDetectedDevices vt2) _) as [vt3 [|]];
      cbn [negb];
      [ | cbn [snd]; split;
          [ split; [discriminate | contradiction]
          | intros status E; injection E as <-; lia ] ].
    destruct (IsDeviceDetected vt3 _) as [vt4 [|]]; cbn [negb snd]; split;
      try (split; [discriminate | contradiction]);
      intros status E; try discriminate; injection E as <-; lia.
Qed.

(** X20.  Without [-h], the command line matters only through the presence
    of [-v]: [argv[0]], every other argument, and the order and number of
    the arguments are ignored. *)
Theorem main_ignores_other_arguments :
  forall (argv argv' : list string) (vt : VT),
    ~ In "-h"%string (tl argv) -> ~ In "-h"%string (tl argv') ->
    (In "-v"%string (tl argv) <-> In "-v"%string (tl argv')) ->
    run argv vt = run argv' vt.
Proof.
  intros argv argv' vt Hh Hh' Hv. subst run. unfold main.
  rewrite !parse_arguments_run by assumption.
  cbn [orb].
  assert (E : existsb (fun a => String.eqb a "-v") (tl argv) =
              existsb (fun a => String.eqb a "-v") (tl argv')).
  { apply eq_true_iff_eq. rewrite !existsb_verbose. exact Hv. }
  now rewrite E.
Qed.

(** X21.  [main] reaches its polling loop exactly when there is no [-h],
    [InitializeVR] (called with [verbose] true exactly when [-v] is given)
    succeeds, the number of device names is not 1, and [controller_1] and
    then [tracker_1] are reported as detected; a provider with no device
    name at all passes the count check. *)
Theorem main_enters_loop_iff :
  forall (argv : list string) (vt vt' : VT),
    snd (run argv vt) = EntersLoop vt' <->
    ~ In "-h"%string (tl argv) /\
    exists (vt1 vt2 vt3 : VT) (names : list string),
      InitializeVR vt (existsb (fun a => String.eqb a "-v") (tl argv)) =
        (vt1, true) /\
      GetAllDeviceNames vt1 = (vt2, names) /\
      length names <> 1%nat /\
      IsDeviceDetected (PrintAllDetectedDevices vt2) "controller_1" =
        (vt3, true) /\
      IsDeviceDetected vt3 "tracker_1" = (vt', true).
Proof.
  intros argv vt vt'.
  destruct (in_dec string_dec "-h"%string (tl argv)) as [Hin|Hin].
  - subst run. unfold main. rewrite parse_arguments_help by exact Hin.
    cbn [snd]. split.
    + discriminate.
    + intros [Hn _]. contradiction.
  - subst run. unfold main. rewrite parse_arguments_run by exact Hin.
    cbn [orb].
    destruct (InitializeVR vt _) as [vt1 ok] eqn:Hi.
    destruct ok; cbn [negb];
      [ | split; [discriminate | intros (_ & ? & ? & ? & ? & E & _); congruence] ].
    destruct (GetAllDeviceNames vt1) as [vt2 names] eqn:Hn.
    destruct (Nat.eqb_spec (length names) 1) as [El|El].
    { split; [discriminate | ].
      intros (_ & w1 & w2 & w3 & ns & E1 & E2 & E3 & _).
      injection E1 as <-. rewrite Hn in E2. injection E2 as <- <-.
      contradiction. }
    destruct (IsDeviceDetected (PrintAllDetectedDevices vt2) "controller_1")
      as [vt3 dc] eqn:Hc.
    destruct dc; cbn [negb].
    2:{ split; [discriminate | ].
        intros (_ & w1 & w2 & w3 & ns & E1 & E2 & _ & E4 & _).
        injection E1 as <-. rewrite Hn in E2. injection E2 as <- <-.
        rewrite Hc in E4. discriminate. }
    destruct (IsDeviceDetected vt3 "tracker_1") as [vt4 dt] eqn:Ht.
    destruct dt; cbn [negb snd].
    2:{ split; [discriminate | ].
        intros (_ & w1 & w2 & w3 & ns & E1 & E2 & _ & E4 & E5).
        injection E1 as <-. rewrite Hn in E2. injection E2 as <- <-.
        rewrite Hc in E4. injection E4 as <-. rewrite Ht in E5.
        discriminate. }
    split.
    + intros E. injection E as <-. split; [exact Hin | ].
      exists vt1, vt2, vt3, names. auto.
    + intros (_ & w1 & w2 & w3 & ns & E1 & E2 & _ & E4 & E5).
      injection E1 as <-. rewrite Hn in E2. injection E2 as <- <-.
      rewrite Hc in E4. injection E4 as <-. rewrite Ht in E5.
      injection E5 as <-. reflexivity.
Qed.

End MainProperties.

Lemma main_help_witness :
  In "-h"%string (tl ["prog"; "-x"; "-h"]%string) /\
  main (fun (vt : unit) (_ : bool) => (vt, true))
       (fun vt : unit => (vt, @nil string)) (fun vt : unit => vt)
       (fun (vt : unit) (_ : string) => (vt, true))
       ["prog"; "-x"; "-h"]%string tt =
  (usage "prog", Returns 0).
Proof.
  assert (Hin : In "-h"%string (tl ["prog"; "-x"; "-h"]%string))
    by (right; left; reflexivity).
  exact (conj Hin
           (@main_help unit (fun vt _ => (vt, true)) (fun vt => (vt, nil))
              (fun vt => vt) (fun vt _ => (vt, true))
              ["prog"; "-x"; "-h"]%string tt Hin)).
Defined.

Lemma main_ignores_other_arguments_witness :
  ~ In "-h"%string (tl ["a"; "-v"; "foo"]%string) /\
  ~ In "-h"%string (tl ["b"; "-v"]%string) /\
  (In "-v"%string (tl ["a"; "-v"; "foo"]%string) <->
   In "-v"%string (tl ["b"; "-v"]%string)) /\
  main (fun (vt : unit) (_ : bool) => (vt, true))
       (fun vt : unit => (vt, @nil string)) (fun vt : unit => vt)
       (fun (vt : unit) (_ : string) => (vt, true))
       ["a"; "-v"; "foo"]%string tt =
  main (fun (vt : unit) (_ : bool) => (vt, true))
       (fun vt : unit => (vt, @nil string)) (fun vt : unit => vt)
       (fun (vt : unit) (_ : string) => (vt, true))
       ["b"; "-v"]%string tt.
Proof.
  assert (H1 : ~ In "-h"%string (tl ["a"; "-v"; "foo"]%string))
    by (intros [H|[H|[]]]; discriminate).
  assert (H2 : ~ In "-h"%string (tl ["b"; "-v"]%string))
    by (intros [H|[]]; discriminate).
  assert (H3 : In "-v"%string (tl ["a"; "-v"; "foo"]%string) <->
               In "-v"%string (tl ["b"; "-v"]%string))
    by (split; intros _; left; reflexivity).
  exact (conj H1 (conj H2 (conj H3
           (@main_ignores_other_arguments unit (fun vt _ => (vt, true))
              (fun vt => (vt, nil)) (fun vt => vt) (fun vt _ => (vt, true))
              ["a"; "-v"; "foo"]%string ["b"; "-v"]%string tt H1 H2 H3)))).
Defined.

(* ================================================================== *)
(** ** More on the evaluator and the encoder *)

(** X23.  [ComputeRelativePosition] leaves the console as it was exactly
    when both queries succeed; otherwise it appends the one error line.
    This holds for every scalar arithmetic. *)
Theorem console_unchanged_iff_success :
  forall (A : Type) (SA : Scalar A) (VT : Type)
         (GetDevicePoseQuaternion :
            VT -> string -> VT * bool * Arr3 A * Arr4 A)
         (vt : VT) (controller_name tracker_name : string)
         (relative_position : Arr3 A) (cout : list string) (stack : Mem A),
    let controller_success :=
      snd (fst (fst (GetDevicePoseQuaternion vt controller_name))) in
    let vt1 :=
      fst (fst (fst (GetDevicePoseQuaternion vt controller_name))) in
    let tracker_success :=
      snd (fst (fst (GetDevicePoseQuaternion vt1 tracker_name))) in
    let cout' :=
      snd (fst (ComputeRelativePosition GetDevicePoseQuaternion vt
                  controller_name tracker_name relative_position cout
                  stack)) in
    (cout' = cout <-> controller_success && tracker_success = true) /\
    (cout' = cout \/
     cout' = cout ++ ["Error: Could not get poses for both devices"%string]).
Proof.
  intros A SA VT get vt cn tn rp cout stack.
  destruct (get vt cn) as [[[vt1 ok1] cp] cq] eqn:Hc. cbn [fst snd].
  destruct (get vt1 tn) as [[[vt2 ok2] tp] tq] eqn:Ht. cbn [fst snd].
  assert (Hneq : cout ++ ["Error: Could not get poses for both devices"%string]
                 <> cout).
  { intros E. apply (f_equal (@length string)) in E.
    rewrite length_app in E. cbn in E. lia. }
  destruct ok1, ok2;
    try (erewrite ComputeRelativePosition_failure by (try eassumption; auto);
         cbn [fst snd andb]; split;
         [ split; [intros E; contradiction | discriminate ] | right; reflexivity ]).
  erewrite ComputeRelativePosition_success by eassumption.
  cbn [fst snd andb]. split; [split; reflexivity | left; reflexivity].
Qed.

(** X24.  Conjugating the quaternion transposes the rotation block: the
    rotation that [InvertTransform] writes for the matrix of
    [(w, x, y, z)] is the rotation [PoseQuatToMatrix] writes for
    [(w, -x, -y, -z)], for every quaternion, unit or not. *)
Theorem Invert_Encode_conjugate :
  forall (pose pose' : Arr3 R) (w x y z : R),
    rotation (Invert (Encode pose (mkArr4 w x y z))) =
    rotation (Encode pose' (mkArr4 w (-x) (-y) (-z))).
Proof.
  intros pose pose' w x y z.
  rewrite Invert_spec_correct, !Encode_spec_correct.
  destruct pose, pose'. spec_unfold. entrywise; ring.
Qed.
